(** * local-simple-rag: the indexing and query orchestration, embedded in Rocq

    The development follows the TypeScript sources:
    - the [Indexer] class (constructor, [log], [loadDocuments],
      [indexDocuments]);
    - [queryDatabase] with its [PROMPT_TEMPLATE].

    Calls that leave the repository (the vector store, the directory loader,
    the chat model, the logger) are recorded as events; what they answer is
    supplied by the environment.  [splitDocuments], [indexFolder] and the
    command-line entry points are not embedded. *)

From Stdlib Require Import ZArith QArith String Ascii List Lia.
From stdpp Require Import base option list strings gmap pretty.

Open Scope Z_scope.

(** ** JavaScript values *)

(** Values that a metadata field can hold.  Numbers are the finite ones;
    objects and arrays are opaque references (always truthy). *)
Inductive JsValue : Type :=
| JUndefined
| JNull
| JBool (b : bool)
| JNum (q : Q)
| JStr (s : string)
| JObject (ref : nat).

(** ToBoolean. *)
Definition truthy (v : JsValue) : bool :=
  match v with
  | JUndefined | JNull => false
  | JBool b => b
  | JNum q => negb (Qeq_bool q 0)
  | JStr s => negb (String.eqb s "")
  | JObject _ => true
  end.

(** [a || b] on values. *)
Definition js_or (a b : JsValue) : JsValue := if truthy a then a else b.

(** [x || d] where [x] is an optional number ([undefined] when unset).
    The numbers of the configuration are taken to be integers; [0] is the
    falsy one. *)
Definition or_number (x : option Z) (d : Z) : Z :=
  match x with
  | Some n => if n =? 0 then d else n
  | None => d
  end.

(** [x || d] where [x] is an optional boolean. *)
Definition or_boolean (x : option bool) (d : bool) : bool :=
  match x with
  | Some true => true
  | _ => d
  end.

(** [x < y] on finite numbers (similarity scores are rationals here). *)
Definition js_lt (x y : Q) : bool := negb (Qle_bool y x).

(** [Math.ceil(a / b)] on integers, [b] not zero. *)
Definition Math_ceil_div (a b : Z) : Z := - ((- a) / b).

(** [Math.floor(a / b)] on integers, [b] not zero. *)
Definition Math_floor_div (a b : Z) : Z := a / b.

(** [Array.prototype.slice(start, end)]: negative positions count from the
    end, both are clamped to the array. *)
Definition slice {A : Type} (l : list A) (start end_ : Z) : list A :=
  let len := Z.of_nat (length l) in
  let k := if start <? 0 then Z.max (len + start) 0 else Z.min start len in
  let final := if end_ <? 0 then Z.max (len + end_) 0 else Z.min end_ len in
  take (Z.to_nat (Z.max (final - k) 0)) (drop (Z.to_nat k) l).

(** [Array.prototype.join(sep)] on strings: the separator is put before
    every element but the first. *)
Fixpoint join_from (sep : string) (acc : string) (k : nat) (l : list string) : string :=
  match l with
  | [] => acc
  | x :: rest =>
      let acc1 := if (k =? 0)%nat then acc else acc +:+ sep in
      join_from sep (acc1 +:+ x) (S k) rest
  end.

Definition join (l : list string) (sep : string) : string := join_from sep "" 0 l.

(** The line feed of a template literal's [\n]. *)
Definition LF : string := String (ascii_of_nat 10) "".

(** ** Documents, errors, events *)

Record Document : Type := mkDocument {
  pageContent : string;
  metadata : gmap string JsValue
}.

(** A thrown error object, with its [name] ("Error", "TypeError", ...) and
    its [message]. *)
Record JsError : Type := mkJsError { name : string; message : string }.

(** [new Error(message)]. *)
Definition mkError (message : string) : JsError :=
  {| name := "Error"; message := message |}.

(** [${error}], that is [Error.prototype.toString]: the message alone when
    the name is empty, the name alone when the message is empty, and
    otherwise the name, a colon and a space, and the message. *)
Definition error_toString (e : JsError) : string :=
  if String.eqb (name e) "" then message e
  else if String.eqb (message e) "" then name e
  else name e +:+ ": " +:+ message e.

Inductive Outcome (A : Type) : Type :=
| Returned (a : A)
| Threw (e : JsError)
| OutOfFuel.

Arguments Returned {A} a.
Arguments Threw {A} e.
Arguments OutOfFuel {A}.

(** What [queryDatabase] resolves to. *)
Record QueryResult : Type := mkQueryResult {
  response : string;
  sources : list JsValue
}.

(** Calls that leave the module, in the order they happen. *)
Inductive Event : Type :=
| LoggerInfo (msg : string)
| LoggerError (msg : string)
| LoggerDebugResults (results : list (Document * Q))
| LoggerInfoResponse (responseText : string) (sources : list JsValue)
| DirectoryLoaderLoad (folderPath : string)
| AddDocuments (batch : list Document)
| SimilaritySearchWithScore (query : string) (k : nat)
| ChatInvoke (prompt : string).

(** ** The effect monad: store state, emitted events, thrown errors *)

Section Effects.
Context {St : Type}.

Record Res (A : Type) : Type := mkRes {
  outcome : Outcome A;
  store : St;
  events : list Event
}.
Arguments mkRes {A} _ _ _.
Arguments outcome {A} _.
Arguments store {A} _.
Arguments events {A} _.

Definition M (A : Type) : Type := St -> Res A.

Definition ret {A} (a : A) : M A := fun s => mkRes (Returned a) s [].

Definition throw {A} (e : JsError) : M A := fun s => mkRes (Threw e) s [].

Definition out_of_fuel {A} : M A := fun s => mkRes OutOfFuel s [].

Definition emit (ev : Event) : M unit := fun s => mkRes (Returned tt) s [ev].

Definition bind {A B} (m : M A) (k : A -> M B) : M B := fun s =>
  let r := m s in
  match outcome r with
  | Returned a =>
      let r' := k a (store r) in
      mkRes (outcome r') (store r') (events r ++ events r')
  | Threw e => mkRes (Threw e) (store r) (events r)
  | OutOfFuel => mkRes OutOfFuel (store r) (events r)
  end.

(** [try { m } catch (error) { h error }]. *)
Definition try_catch {A} (m : M A) (h : JsError -> M A) : M A := fun s =>
  let r := m s in
  match outcome r with
  | Threw e =>
      let r' := h e (store r) in
      mkRes (outcome r') (store r') (events r ++ events r')
  | _ => r
  end.

(** An awaited call whose answer does not touch the store. *)
Definition await {A} (o : Outcome A) : M A := fun s => mkRes o s [].
End Effects.

Arguments Res : clear implicits.
Arguments M : clear implicits.
Arguments mkRes {St A} _ _ _.
Arguments outcome {St A} _.
Arguments store {St A} _.
Arguments events {St A} _.

Notation "x <- m ;; k" := (bind m (fun x => k))
  (at level 100, m at next level, right associativity, only parsing).
Notation "m ;;; k" := (bind m (fun _ => k))
  (at level 100, right associativity, only parsing).

(** ** External collaborators *)

(** The vector store client, by what its two methods do to the database
    state [St]. [addDocuments] leaves a new state and may throw. *)
Record QdrantVectorStore (St : Type) : Type := mkVectorStore {
  addDocuments_impl : St -> list Document -> St * option JsError;
  similaritySearchWithScore_impl : St -> string -> nat -> Outcome (list (Document * Q))
}.
Arguments addDocuments_impl {St} _ _ _.
Arguments similaritySearchWithScore_impl {St} _ _ _ _.

Definition addDocuments {St} (vs : QdrantVectorStore St) (batch : list Document) : M St unit :=
  fun s =>
    let '(s', err) := addDocuments_impl vs s batch in
    mkRes (match err with Some e => Threw e | None => Returned tt end)
          s' [AddDocuments batch].

Definition similaritySearchWithScore {St} (vs : QdrantVectorStore St)
    (query : string) (k : nat) : M St (list (Document * Q)) :=
  fun s =>
    mkRes (similaritySearchWithScore_impl vs s query k) s
          [SimilaritySearchWithScore query k].

(** ** The Indexer *)

(** Modelled from the spec: the [IndexerConfig] type declaration
    ([../types]) is not among the sources; the constructor reads four
    optional fields from it, the ones the spec lists for the resolved
    configuration. *)
Record IndexerConfig : Type := mkIndexerConfig {
  cfg_chunkSize : option Z;
  cfg_chunkOverlap : option Z;
  cfg_enableLogging : option bool;
  cfg_batchSize : option Z
}.

(** [Required<IndexerConfig>]. *)
Record RequiredIndexerConfig : Type := mkRequired {
  chunkSize : Z;
  chunkOverlap : Z;
  enableLogging : bool;
  batchSize : Z
}.

Record Indexer (St : Type) : Type := mkIndexer {
  vectorStore : option (QdrantVectorStore St);
  config : RequiredIndexerConfig
}.
Arguments mkIndexer {St} _ _.
Arguments vectorStore {St} _.
Arguments config {St} _.

(** [config?.field]. *)
Definition opt_field {A} (config : option IndexerConfig)
    (field : IndexerConfig -> option A) : option A :=
  match config with
  | Some c => field c
  | None => None
  end.

Definition new_Indexer {St} (vectorStore : option (QdrantVectorStore St))
    (config : option IndexerConfig) : Indexer St :=
  {| vectorStore := vectorStore;
     config := {| chunkSize := or_number (opt_field config cfg_chunkSize) 500;
                  chunkOverlap := or_number (opt_field config cfg_chunkOverlap) 100;
                  enableLogging := or_boolean (opt_field config cfg_enableLogging) true;
                  batchSize := or_number (opt_field config cfg_batchSize) 10 |} |}.

Section IndexerMethods.
Context {St : Type}.

(** [new DirectoryLoader(folderPath, loaders, true).load()]: what the
    file system and the parsers give for a folder. *)
Variable DirectoryLoader_load : string -> Outcome (list Document).

Definition log (self : Indexer St) (message : string) : M St unit :=
  if enableLogging (config self)
  then emit (LoggerInfo ("[Indexer] " +:+ message))
  else ret tt.

Definition logError (self : Indexer St) (message : string) : M St unit :=
  if enableLogging (config self)
  then emit (LoggerError ("[Indexer] " +:+ message))
  else ret tt.

(** The object literal [{ ...doc.metadata, loadedFrom: "local_folder", folderPath }]. *)
Definition tag_metadata (folderPath : string) (m : gmap string JsValue)
    : gmap string JsValue :=
  <["folderPath" := JStr folderPath]> (<["loadedFrom" := JStr "local_folder"]> m).

Definition tag_document (folderPath : string) (doc : Document) : Document :=
  {| pageContent := pageContent doc;
     metadata := tag_metadata folderPath (metadata doc) |}.

Definition loadDocuments (self : Indexer St) (folderPath : string)
    : M St (list Document) :=
  try_catch
    (emit (DirectoryLoaderLoad folderPath) ;;;
     loaded <- await (DirectoryLoader_load folderPath) ;;
     let documents := map (tag_document folderPath) loaded in
     log self ("Loaded " +:+ pretty (length documents)
               +:+ " documents from folder: " +:+ folderPath) ;;;
     ret documents)
    (fun error =>
       logError self ("Error loading documents from " +:+ folderPath
                      +:+ ": " +:+ error_toString error) ;;;
       throw (mkError ("Failed to load documents for folder " +:+ folderPath
                       +:+ ": " +:+ error_toString error))).

(** [await this.vectorStore?.addDocuments(batch)]. *)
Definition vectorStore_addDocuments (self : Indexer St) (batch : list Document)
    : M St unit :=
  match vectorStore self with
  | Some vs => addDocuments vs batch
  | None => ret tt
  end.

(** The [for (let i = 0; i < chunks.length; i += batchSize)] loop, from
    position [i] on.  [fuel] bounds the number of iterations. *)
Fixpoint indexDocuments_for (fuel : nat) (self : Indexer St)
    (chunks : list Document) (i : Z) : M St unit :=
  match fuel with
  | O => out_of_fuel
  | S fuel' =>
      let batchSize := batchSize (config self) in
      if i <? Z.of_nat (length chunks) then
        let batch := slice chunks i (i + batchSize) in
        log self ("Processing batch "
                  +:+ pretty (Math_floor_div i batchSize + 1) +:+ "/"
                  +:+ pretty (Math_ceil_div (Z.of_nat (length chunks)) batchSize)
                  +:+ " (" +:+ pretty (length batch) +:+ " chunks)") ;;;
        try_catch (vectorStore_addDocuments self batch)
          (fun error =>
             log self ("Error processing batch: " +:+ error_toString error) ;;;
             throw error) ;;;
        indexDocuments_for fuel' self chunks (i + batchSize)
      else ret tt
  end.

Definition indexDocuments (fuel : nat) (self : Indexer St)
    (chunks : list Document) : M St unit :=
  if (length chunks =? 0)%nat then
    log self "No chunks to save"
  else
    log self ("Saving " +:+ pretty (length chunks) +:+ " chunks to vector store...") ;;;
    indexDocuments_for fuel self chunks 0 ;;;
    log self "Successfully saved all chunks to vector store".
End IndexerMethods.

(** ** The query service *)

Definition PROMPT_TEMPLATE : string := "
Answer the question based only on the following context:

{context}

---

Answer the question based on the above context: {question}
".

Definition outcome_map {A B : Type} (f : A -> B) (o : Outcome A) : Outcome B :=
  match o with
  | Returned a => Returned (f a)
  | Threw e => Threw e
  | OutOfFuel => OutOfFuel
  end.

Fixpoint lookup_value (values : list (string * string)) (name : string) : option string :=
  match values with
  | [] => None
  | (k, v) :: rest => if String.eqb k name then Some v else lookup_value rest name
  end.

(** The f-string substitution of the prompt library: [{name}] is replaced
    by the value of [name], a doubled brace stands for one brace,
    everything else is copied.  [name] is the placeholder being read, if
    any.  Substituted values are not scanned again. *)
Fixpoint fstring_format (values : list (string * string)) (name : option string)
    (template : string) : Outcome string :=
  match template, name with
  | EmptyString, None => Returned ""
  | EmptyString, Some _ => Threw (mkError "Unclosed '{' in template.")
  | String c rest, Some n =>
      if Ascii.eqb c "}" then
        match lookup_value values n with
        | Some v => outcome_map (String.append v) (fstring_format values None rest)
        | None => Threw (mkError ("Missing value for input " +:+ n))
        end
      else fstring_format values (Some (n +:+ String c "")) rest
  | String c rest, None =>
      if Ascii.eqb c "{" then
        match rest with
        | String c' rest' =>
            if Ascii.eqb c' "{"
            then outcome_map (String "{") (fstring_format values None rest')
            else fstring_format values (Some "") rest
        | EmptyString => fstring_format values (Some "") rest
        end
      else if Ascii.eqb c "}" then
        match rest with
        | String c' rest' =>
            if Ascii.eqb c' "}"
            then outcome_map (String "}") (fstring_format values None rest')
            else Threw (mkError "Single '}' in template.")
        | EmptyString => Threw (mkError "Single '}' in template.")
        end
      else outcome_map (String c) (fstring_format values None rest)
  end.

(** [ChatPromptTemplate.fromTemplate(template).format(values)]: the
    template becomes the one human message of a chat prompt, and [format]
    gives the chat prompt as a string, each message after its role label:
    ["Human: "] and then the rendered template. *)
Definition ChatPromptTemplate_format (template : string)
    (values : list (string * string)) : Outcome string :=
  outcome_map (String.append "Human: ") (fstring_format values None template).

Arguments ChatPromptTemplate_format : simpl never.

(** [results.length === 0 || (results[0] && results[0][1] < 0.6)]. *)
Definition no_match (results : list (Document * Q)) : bool :=
  (length results =? 0)%nat
  || match results !! 0%nat with
     | Some r => js_lt (snd r) 0.6
     | None => false
     end.

(** [results.map(([doc, _score]) => doc.pageContent).join("\n\n---\n\n")]. *)
Definition contextText (results : list (Document * Q)) : string :=
  join (map (fun '(doc, _score) => pageContent doc) results)
       (LF +:+ LF +:+ "---" +:+ LF +:+ LF).

(** [doc.metadata.source]: [undefined] when the field is not there. *)
Definition metadata_source (doc : Document) : JsValue :=
  default JUndefined (metadata doc !! "source").

(** [results.map(([doc, _score]) => doc.metadata.source || null)]. *)
Definition result_sources (results : list (Document * Q)) : list JsValue :=
  map (fun '(doc, _score) => js_or (metadata_source doc) JNull) results.

Section QueryService.
Context {St : Type}.

(** The shared [vectorStore] of [./llm]. *)
Variable vectorStore : QdrantVectorStore St.

(** [new ChatOllama({...}).invoke(prompt)], down to [response.content]. *)
Variable ChatOllama_invoke : string -> Outcome string.

Definition model_invoke (prompt : string) : M St string :=
  emit (ChatInvoke prompt) ;;;
  await (ChatOllama_invoke prompt).

Definition queryDatabase (queryText : string) : M St (option QueryResult) :=
  results <- similaritySearchWithScore vectorStore queryText 5 ;;
  emit (LoggerDebugResults results) ;;;
  if no_match results then
    emit (LoggerError "Unable to find matching results.") ;;;
    ret None
  else
    let contextText := contextText results in
    prompt <- await (ChatPromptTemplate_format PROMPT_TEMPLATE
                       [("context", contextText); ("question", queryText)]) ;;
    responseText <- model_invoke prompt ;;
    let sources := result_sources results in
    emit (LoggerInfoResponse responseText sources) ;;;
    ret (Some {| response := responseText; sources := sources |}).
End QueryService.

(** ** Observations on a run *)

(** The batches handed to [addDocuments], in call order. *)
Definition add_calls (evs : list Event) : list (list Document) :=
  omap (fun ev => match ev with AddDocuments b => Some b | _ => None end) evs.

(** The prompts handed to the chat model, in call order. *)
Definition prompts_sent (evs : list Event) : list string :=
  omap (fun ev => match ev with ChatInvoke p => Some p | _ => None end) evs.

(** The template as the specification's External Interfaces section prints
    it (a second definition, from the specification's text, to compare
    [PROMPT_TEMPLATE] with). *)
Definition SPEC_PROMPT_TEMPLATE : string :=
"Answer the question based only on the following context:

{context}

---

Answer the question based on the above context: {question}".

(** The sources list as the specification words it: each candidate's
    [metadata.source], [null] only where the field is missing. *)
Definition spec_sources (results : list (Document * Q)) : list JsValue :=
  map (fun r => default JNull (metadata (fst r) !! "source")) results.

(** ** The batches of a run, as a list *)

(** The [j]-th batch (from 0) of [chunks] cut in consecutive runs of [B]. *)
Definition batch_at (B : nat) (chunks : list Document) (j : nat) : list Document :=
  take B (drop (j * B) chunks).

(** [ceil(N / B)] as a count. *)
Definition batch_count (B : Z) (chunks : list Document) : nat :=
  Z.to_nat (Math_ceil_div (Z.of_nat (length chunks)) B).

(** The consecutive batches of [chunks] for batch size [B]. *)
Definition batches (B : Z) (chunks : list Document) : list (list Document) :=
  map (batch_at (Z.to_nat B) chunks) (seq 0 (batch_count B chunks)).

(** Where a sequence of [addDocuments] calls first throws, and with what. *)
Fixpoint first_failure {St : Type} (vs : QdrantVectorStore St) (s : St)
    (bs : list (list Document)) : option (nat * JsError) :=
  match bs with
  | [] => None
  | b :: bs' =>
      match addDocuments_impl vs s b with
      | (_, Some e) => Some (0%nat, e)
      | (s', None) =>
          match first_failure vs s' bs' with
          | Some (k, e) => Some (S k, e)
          | None => None
          end
      end
  end.

(** The database after a sequence of [addDocuments] calls and nothing else. *)
Definition store_after {St : Type} (vs : QdrantVectorStore St) (s : St)
    (bs : list (list Document)) : St :=
  foldl (fun s b => fst (addDocuments_impl vs s b)) s bs.

Section BatchingModel.
Context {St : Type}.
Variable self : Indexer St.
Variable chunks : list Document.

(** What [log] writes, given the resolved [enableLogging]. *)
Definition log_events (msg : string) : list Event :=
  if enableLogging (config self) then [LoggerInfo ("[Indexer] " +:+ msg)] else [].

Definition batch_message (j : nat) (b : list Document) : string :=
  "Processing batch " +:+ pretty (Z.of_nat j + 1) +:+ "/"
  +:+ pretty (Math_ceil_div (Z.of_nat (length chunks)) (batchSize (config self)))
  +:+ " (" +:+ pretty (length b) +:+ " chunks)".

(** One loop body per batch of an explicit list, numbered from [j]. *)
Fixpoint process_batches (j : nat) (bs : list (list Document)) : M St unit :=
  match bs with
  | [] => ret tt
  | b :: bs' =>
      log self (batch_message j b) ;;;
      try_catch (vectorStore_addDocuments self b)
        (fun error =>
           log self ("Error processing batch: " +:+ error_toString error) ;;;
           throw error) ;;;
      process_batches (S j) bs'
  end.

End BatchingModel.

(** ** Fixtures for the worked examples *)

(** A store that answers every search with [rs] and accepts every write. *)
Definition fixedResults (rs : list (Document * Q)) : QdrantVectorStore unit :=
  {| addDocuments_impl := fun s _ => (s, None);
     similaritySearchWithScore_impl := fun _ _ _ => Returned rs |}.

(** A chat model that answers every prompt with the same text. *)
Definition constantChat (text : string) : string -> Outcome string :=
  fun _ => Returned text.

Definition plainDoc (content : string) : Document :=
  {| pageContent := content; metadata := ∅ |}.

Definition sourcedDoc (content : string) (source : JsValue) : Document :=
  {| pageContent := content; metadata := {["source" := source]} |}.

(** A loader that finds the same documents in every folder. *)
Definition fixedLoader (docs : list Document) : string -> Outcome (list Document) :=
  fun _ => Returned docs.

(** A store that keeps the chunks it is given, in order. *)
Definition appendStore : QdrantVectorStore (list Document) :=
  {| addDocuments_impl := fun s b => (s ++ b, None);
     similaritySearchWithScore_impl := fun _ _ _ => Returned [] |}.

(** A store that throws, keeping nothing of the batch, when the batch has a
    chunk with content [bad]; it keeps every other batch. *)
Definition rejectingStore (bad : string) : QdrantVectorStore (list Document) :=
  {| addDocuments_impl := fun s b =>
       if existsb (fun d => String.eqb (pageContent d) bad) b
       then (s, Some (mkError "write failed"))
       else (s ++ b, None);
     similaritySearchWithScore_impl := fun _ _ _ => Returned [] |}.

(** A store whose every write throws [e], keeping nothing. *)
Definition throwingStore (e : JsError) : QdrantVectorStore unit :=
  {| addDocuments_impl := fun s _ => (s, Some e);
     similaritySearchWithScore_impl := fun _ _ _ => Returned [] |}.

Definition batchesOfTwo : option IndexerConfig :=
  Some {| cfg_chunkSize := None; cfg_chunkOverlap := None;
          cfg_enableLogging := None; cfg_batchSize := Some 2 |}.

Definition fiveChunks : list Document :=
  [plainDoc "a"; plainDoc "b"; plainDoc "c"; plainDoc "d"; plainDoc "e"].

(** ** The rest of the Indexer: splitting and the whole pipeline *)

(** What [logger.debug] gets as its second argument. *)
Inductive DebugData : Type :=
| DebugString (s : string)
| DebugMetadata (m : gmap string JsValue)
| DebugUndefined.

(** The events of the whole Indexer: those of loading and batching, the
    debug lines, and the two calls into the text splitter. *)
Inductive IndexerEvent : Type :=
| Plain (ev : Event)
| LoggerDebug (msg : string) (data : DebugData)
| NewTextSplitter (chunkSize chunkOverlap : Z)
| SplitDocuments (chunkSize chunkOverlap : Z) (documents : list Document).

Section Pipeline.
Context {St : Type}.

Record Run (A : Type) : Type := mkRun {
  result : Outcome A;
  final : St;
  trace : list IndexerEvent
}.
Arguments mkRun {A} _ _ _.
Arguments result {A} _.
Arguments final {A} _.
Arguments trace {A} _.

Definition P (A : Type) : Type := St -> Run A.

Definition pret {A} (a : A) : P A := fun s => mkRun (Returned a) s [].

Definition pemit (ev : IndexerEvent) : P unit := fun s => mkRun (Returned tt) s [ev].

Definition pawait {A} (o : Outcome A) : P A := fun s => mkRun o s [].

Definition pbind {A B} (m : P A) (k : A -> P B) : P B := fun s =>
  let r := m s in
  match result r with
  | Returned a =>
      let r' := k a (final r) in
      mkRun (result r') (final r') (trace r ++ trace r')
  | Threw e => mkRun (Threw e) (final r) (trace r)
  | OutOfFuel => mkRun OutOfFuel (final r) (trace r)
  end.

(** A method of the first part, run inside the pipeline. *)
Definition lift {A} (m : M St A) : P A := fun s =>
  mkRun (outcome (m s)) (store (m s)) (map Plain (events (m s))).
End Pipeline.

Arguments Run : clear implicits.
Arguments P : clear implicits.
Arguments mkRun {St A} _ _ _.
Arguments result {St A} _.
Arguments final {St A} _.
Arguments trace {St A} _.

Notation "x <~ m ;; k" := (pbind m (fun x => k))
  (at level 100, m at next level, right associativity, only parsing).
Notation "m ~;; k" := (pbind m (fun _ => k))
  (at level 100, right associativity, only parsing).

(** A string stands for the JavaScript string it encodes in UTF-8; the
    positions of [substring] count UTF-16 code units.  [utf8_char_size]
    gives, from its first byte, the number of bytes of a character and the
    number of code units it takes (two for a character beyond U+FFFF). *)
Definition utf8_char_size (c : ascii) : nat * nat :=
  let n := nat_of_ascii c in
  if (n <? 192)%nat then (1, 1)%nat
  else if (n <? 224)%nat then (2, 1)%nat
  else if (n <? 240)%nat then (3, 1)%nat
  else (4, 2)%nat.

(** The first half (high surrogate) of the pair of a four-byte character,
    in the three-byte form of a lone surrogate. *)
Definition high_surrogate (c : ascii) (rest : string) : string :=
  match rest with
  | String b1 (String b2 _) =>
      let top := (N.shiftl (N.land (N_of_ascii c) 7) 8
                  + N.shiftl (N.land (N_of_ascii b1) 63) 2
                  + N.shiftr (N.land (N_of_ascii b2) 63) 4)%N in
      let high := (55232 + top)%N in
      String (ascii_of_N 237)
        (String (ascii_of_N (128 + N.land (N.shiftr high 6) 63))
           (String (ascii_of_N (128 + N.land high 63)) ""))
  | _ => ""
  end.

(** The first [budget] code units of [s]; [pending] counts the bytes still
    to copy of a character already counted. *)
Fixpoint utf16_take (budget pending : nat) (s : string) : string :=
  match s with
  | EmptyString => ""
  | String c rest =>
      match pending with
      | S p => String c (utf16_take budget p rest)
      | O =>
          match budget with
          | O => ""
          | S b =>
              match utf8_char_size c, b with
              | (_, 2%nat), O => high_surrogate c rest
              | (_, 2%nat), S b' => String c (utf16_take b' 3 rest)
              | (bytes, _), _ => String c (utf16_take b (bytes - 1) rest)
              end
          end
      end
  end.

(** [s.substring(0, 200)]. *)
Definition substring_0_200 (s : string) : string := utf16_take 200 0 s.


Section IndexerPipeline.
Context {St : Type}.

Variable DirectoryLoader_load : string -> Outcome (list Document).

(** [new RecursiveCharacterTextSplitter({ chunkSize, chunkOverlap })]: the
    constructor may throw. *)
Variable RecursiveCharacterTextSplitter_new : Z -> Z -> option JsError.

(** [textSplitter.splitDocuments(documents)] of a splitter built with the
    two sizes. *)
Variable textSplitter_splitDocuments : Z -> Z -> list Document -> Outcome (list Document).

Definition logDebug (self : Indexer St) (message : string) (data : DebugData)
    : P St unit :=
  if enableLogging (config self)
  then pemit (LoggerDebug ("[Indexer] " +:+ message) data)
  else pret tt.

Definition new_textSplitter (chunkSize chunkOverlap : Z) : P St unit :=
  pemit (NewTextSplitter chunkSize chunkOverlap) ~;;
  match RecursiveCharacterTextSplitter_new chunkSize chunkOverlap with
  | Some e => pawait (Threw e)
  | None => pret tt
  end.

(** The sizes in the "Splitting" line are printed as JavaScript prints
    integers below 10^21, digit by digit. *)
Definition splitDocuments (self : Indexer St) (documents : list Document)
    : P St (list Document) :=
  if (length documents =? 0)%nat then
    lift (log self "No documents to split") ~;;
    pret []
  else
    new_textSplitter (chunkSize (config self)) (chunkOverlap (config self)) ~;;
    lift (log self ("Splitting " +:+ pretty (length documents)
                    +:+ " documents (chunk size: " +:+ pretty (chunkSize (config self))
                    +:+ ", overlap: " +:+ pretty (chunkOverlap (config self))
                    +:+ ")...")) ~;;
    chunks <~ (pemit (SplitDocuments (chunkSize (config self))
                        (chunkOverlap (config self)) documents) ~;;
               pawait (textSplitter_splitDocuments (chunkSize (config self))
                         (chunkOverlap (config self)) documents)) ;;
    lift (log self ("Split into " +:+ pretty (length chunks) +:+ " chunks")) ~;;
    (if enableLogging (config self) && (10 <? length chunks)%nat then
       let sampleChunk := chunks !! 10%nat in
       logDebug self "Sample chunk:"
         (DebugString (match sampleChunk with
                       | Some c => substring_0_200 (pageContent c)
                       | None => "undefined"
                       end +:+ "...")) ~;;
       logDebug self "Sample metadata:"
         (match sampleChunk with
          | Some c => DebugMetadata (metadata c)
          | None => DebugUndefined
          end)
     else pret tt) ~;;
    pret chunks.

Definition indexFolder (fuel : nat) (self : Indexer St) (folderPath : string)
    : P St unit :=
  documents <~ lift (loadDocuments DirectoryLoader_load self folderPath) ;;
  chunks <~ splitDocuments self documents ;;
  lift (indexDocuments fuel self chunks).
End IndexerPipeline.

(** ** The command-line entry points *)

(** How a [main] ends: [process.exit(code)], or its promise resolving. *)
Inductive ExitStatus : Type :=
| ProcessExit (code : Z)
| Completed.

(** [!queryText] for [process.argv[2]]: true when the argument is missing
    or is the empty string. *)
Definition not_text (queryText : option string) : bool :=
  match queryText with
  | Some t => String.eqb t ""
  | None => true
  end.

Section EntryPoints.
Context {St : Type}.
Variable vectorStore : QdrantVectorStore St.
Variable ChatOllama_invoke : string -> Outcome string.

(** [main] of the query module; [process.exit] does not return. *)
Definition query_main (argv : list string) : M St ExitStatus :=
  let queryText := argv !! 2%nat in
  if not_text queryText then
    emit (LoggerError "Usage: bun run src/lib/query.ts <query_text>") ;;;
    ret (ProcessExit 1)
  else
    queryDatabase vectorStore ChatOllama_invoke (default "" queryText) ;;;
    ret Completed.

(** [main] of [simpleQuery.ts]. *)
Definition simpleQuery_main (argv : list string) : M St ExitStatus :=
  let queryText := argv !! 2%nat in
  if not_text queryText then
    emit (LoggerError "Usage: bun run src/lib/simpleQuery.ts <query_text>") ;;;
    ret (ProcessExit 1)
  else
    content <- model_invoke ChatOllama_invoke (default "" queryText) ;;
    emit (LoggerInfo content) ;;;
    ret Completed.
End EntryPoints.

(** ** Observations on a pipeline run, and more fixtures *)

(** The batches handed to [addDocuments] during a pipeline run. *)
Definition pipeline_add_calls (evs : list IndexerEvent) : list (list Document) :=
  omap (fun ev => match ev with Plain (AddDocuments b) => Some b | _ => None end) evs.

(** The document lists handed to the text splitter. *)
Definition split_calls (evs : list IndexerEvent) : list (list Document) :=
  omap (fun ev => match ev with SplitDocuments _ _ d => Some d | _ => None end) evs.

(** The debug lines. *)
Definition debug_lines (evs : list IndexerEvent) : list (string * DebugData) :=
  omap (fun ev => match ev with LoggerDebug m d => Some (m, d) | _ => None end) evs.

(** The similarity searches of a run. *)
Definition searches (evs : list Event) : list (string * nat) :=
  omap (fun ev => match ev with
                  | SimilaritySearchWithScore q k => Some (q, k)
                  | _ => None
                  end) evs.

(** The events of the first part inside a pipeline run. *)
Definition plain_events (evs : list IndexerEvent) : list Event :=
  omap (fun ev => match ev with Plain e => Some e | _ => None end) evs.

(** The lines written with [logger.info] and with [logger.error]. *)
Definition info_lines (evs : list Event) : list string :=
  omap (fun ev => match ev with LoggerInfo m => Some m | _ => None end) evs.

Definition error_lines (evs : list Event) : list string :=
  omap (fun ev => match ev with LoggerError m => Some m | _ => None end) evs.

(** The progress line and the call of each batch of a list, in order,
    numbered from [j]. *)
Fixpoint progress_events {St : Type} (self : Indexer St) (chunks : list Document)
    (j : nat) (bs : list (list Document)) : list Event :=
  match bs with
  | [] => []
  | b :: bs' =>
      LoggerInfo ("[Indexer] " +:+ batch_message self chunks j b)
      :: AddDocuments b :: progress_events self chunks (S j) bs'
  end.

(** The two debug lines about the 11th chunk, written when logging is on
    and there are more than 10 chunks. *)
Definition sample_debug {St : Type} (self : Indexer St) (chunks : list Document)
    : list IndexerEvent :=
  if enableLogging (config self) && (10 <? length chunks)%nat then
    [LoggerDebug "[Indexer] Sample chunk:"
       (DebugString (match chunks !! 10%nat with
                     | Some c => substring_0_200 (pageContent c)
                     | None => "undefined"
                     end +:+ "..."));
     LoggerDebug "[Indexer] Sample metadata:"
       (match chunks !! 10%nat with
        | Some c => DebugMetadata (metadata c)
        | None => DebugUndefined
        end)]
  else [].

Definition splitting_message {St : Type} (self : Indexer St) (documents : list Document)
    : string :=
  "Splitting " +:+ pretty (length documents)
  +:+ " documents (chunk size: " +:+ pretty (chunkSize (config self))
  +:+ ", overlap: " +:+ pretty (chunkOverlap (config self)) +:+ ")...".

(** [n] copies of [t] in a row. *)
Fixpoint repeated (n : nat) (t : string) : string :=
  match n with
  | O => ""
  | S k => t +:+ repeated k t
  end.

(** The letter e with an acute accent: one code unit, two bytes. *)
Definition e_acute : string :=
  String (ascii_of_nat 195) (String (ascii_of_nat 169) "").

(** A splitter that cuts nothing: every document is one chunk. *)
Definition identitySplitter : Z -> Z -> list Document -> Outcome (list Document) :=
  fun _ _ docs => Returned docs.

Definition anySizes : Z -> Z -> option JsError := fun _ _ => None.

(** A loader that cannot read the folder. *)
Definition failingLoader (msg : string) : string -> Outcome (list Document) :=
  fun _ => Threw (mkError msg).

(** A store whose search throws. *)
Definition unreachableStore (msg : string) : QdrantVectorStore unit :=
  {| addDocuments_impl := fun s _ => (s, Some (mkError msg));
     similaritySearchWithScore_impl := fun _ _ _ => Threw (mkError msg) |}.

(** A chat model that throws. *)
Definition failingChat (msg : string) : string -> Outcome string :=
  fun _ => Threw (mkError msg).

Definition twelveChunks : list Document :=
  map (fun n => plainDoc (pretty n)) (seq 0 12).

(** * Properties *)

(** ** Helper lemmas on the monad and on JavaScript operators *)

Lemma js_lt_true (x y : Q) : js_lt x y = true <-> (x < y)%Q.
Proof.
  unfold js_lt. rewrite negb_true_iff.
  split.
  - intros H. apply Qnot_le_lt. intros Hle.
    apply Qle_bool_iff in Hle. congruence.
  - intros H. destruct (Qle_bool y x) eqn:E; [|reflexivity].
    apply Qle_bool_iff in E. exfalso. exact (Qlt_not_le _ _ H E).
Qed.

Lemma js_lt_false (x y : Q) : js_lt x y = false <-> (y <= x)%Q.
Proof.
  unfold js_lt. rewrite negb_false_iff. apply Qle_bool_iff.
Qed.


Lemma or_boolean_true (x : option bool) : or_boolean x true = true.
Proof. destruct x as [[|]|]; reflexivity. Qed.

Lemma new_Indexer_logs {St} (vs : option (QdrantVectorStore St))
    (cfg : option IndexerConfig) :
  enableLogging (config (new_Indexer vs cfg)) = true.
Proof. cbn. apply or_boolean_true. Qed.

Lemma log_enabled {St} (self : Indexer St) (msg : string) (s : St) :
  enableLogging (config self) = true ->
  log self msg s = mkRes (Returned tt) s [LoggerInfo ("[Indexer] " +:+ msg)].
Proof. intros H. unfold log. rewrite H. reflexivity. Qed.

Lemma append_nil_r (a : string) : a +:+ "" = a.
Proof.
  induction a as [|c a IH]; [reflexivity|].
  change (String c (a +:+ "") = String c a). by rewrite IH.
Qed.

Lemma append_assoc (a b c : string) : a +:+ (b +:+ c) = (a +:+ b) +:+ c.
Proof.
  induction a as [|x a IH]; [reflexivity|].
  change (String x (a +:+ (b +:+ c)) = String x ((a +:+ b) +:+ c)).
  by rewrite IH.
Qed.

Lemma append_nil_l (a : string) : "" +:+ a = a.
Proof. reflexivity. Qed.

(** [join] is the concatenation with the separator between neighbours. *)
Lemma join_from_concat (sep acc : string) (k : nat) (l : list string) :
  join_from sep acc k l =
  acc +:+ (if (k =? 0)%nat then "" else match l with [] => "" | _ => sep end)
      +:+ String.concat sep l.
Proof.
  revert acc k. induction l as [|x rest IH]; intros acc k; cbn [join_from].
  - cbn [String.concat]. destruct (k =? 0)%nat; by rewrite !append_nil_r.
  - rewrite IH. cbn [Nat.eqb].
    destruct rest as [|y rest']; cbn [String.concat];
      destruct (k =? 0)%nat;
      by rewrite ?append_assoc, ?append_nil_r, ?append_nil_l, ?append_nil_r.
Qed.

Lemma join_concat (sep : string) (l : list string) :
  join l sep = String.concat sep l.
Proof. unfold join. rewrite join_from_concat. reflexivity. Qed.

(** The rendered prompt, for any context and question. *)
Lemma format_PROMPT_TEMPLATE (context question : string) :
  ChatPromptTemplate_format PROMPT_TEMPLATE
    [("context", context); ("question", question)]
  = Returned ("Human: " +:+ LF
       +:+ "Answer the question based only on the following context:"
              +:+ LF +:+ LF +:+ context +:+ LF +:+ LF +:+ "---" +:+ LF +:+ LF
              +:+ "Answer the question based on the above context: "
              +:+ question +:+ LF).
Proof. reflexivity. Qed.

Lemma no_match_cons (doc : Document) (score : Q) (rest : list (Document * Q)) :
  no_match ((doc, score) :: rest) = js_lt score 0.6.
Proof. reflexivity. Qed.

(** ** The query service: the gate, the context, the prompt, the sources *)

Section QueryProperties.
Context {St : Type}.
Variable vs : QdrantVectorStore St.
Variable chat : string -> Outcome string.

(** The run up to the gate, when the search answers. *)
Lemma queryDatabase_rejected (queryText : string) (results : list (Document * Q)) (s : St) :
  similaritySearchWithScore_impl vs s queryText 5 = Returned results ->
  no_match results = true ->
  queryDatabase vs chat queryText s
  = mkRes (Returned None) s
      [SimilaritySearchWithScore queryText 5; LoggerDebugResults results;
       LoggerError "Unable to find matching results."].
Proof.
  intros Hsearch Hgate.
  unfold queryDatabase, bind, similaritySearchWithScore. cbn.
  rewrite Hsearch. cbn. rewrite Hgate. reflexivity.
Qed.

(** The run past the gate, when the search answers. *)
Lemma queryDatabase_accepted (queryText : string) (results : list (Document * Q)) (s : St) :
  similaritySearchWithScore_impl vs s queryText 5 = Returned results ->
  no_match results = false ->
  let prompt :=
    "Human: " +:+ LF
       +:+ "Answer the question based only on the following context:"
       +:+ LF +:+ LF +:+ contextText results +:+ LF +:+ LF +:+ "---" +:+ LF +:+ LF
       +:+ "Answer the question based on the above context: "
       +:+ queryText +:+ LF in
  queryDatabase vs chat queryText s
  = match chat prompt with
    | Returned responseText =>
        mkRes (Returned (Some {| response := responseText;
                                 sources := result_sources results |})) s
          [SimilaritySearchWithScore queryText 5; LoggerDebugResults results;
           ChatInvoke prompt;
           LoggerInfoResponse responseText (result_sources results)]
    | Threw e =>
        mkRes (Threw e) s
          [SimilaritySearchWithScore queryText 5; LoggerDebugResults results;
           ChatInvoke prompt]
    | OutOfFuel =>
        mkRes OutOfFuel s
          [SimilaritySearchWithScore queryText 5; LoggerDebugResults results;
           ChatInvoke prompt]
    end.
Proof.
  intros Hsearch Hgate prompt.
  unfold queryDatabase, bind, similaritySearchWithScore. cbn.
  rewrite Hsearch. cbn. rewrite Hgate.
  rewrite format_PROMPT_TEMPLATE. cbn. fold prompt.
  destruct (chat prompt); reflexivity.
Qed.
End QueryProperties.

Lemma prompts_sent_rejected (queryText : string) (results : list (Document * Q)) :
  prompts_sent [SimilaritySearchWithScore queryText 5; LoggerDebugResults results;
                LoggerError "Unable to find matching results."] = [].
Proof. reflexivity. Qed.

Lemma result_sources_lookup (results : list (Document * Q)) (i : nat) (cand : Document * Q) :
  results !! i = Some cand ->
  result_sources results !! i
  = Some (match metadata (fst cand) !! "source" with
          | Some v => if truthy v then v else JNull
          | None => JNull
          end).
Proof.
  intros Hi. unfold result_sources. rewrite list_lookup_fmap, Hi.
  destruct cand as [doc score]. cbn.
  unfold js_or, metadata_source.
  destruct (metadata doc !! "source") as [v|]; reflexivity.
Qed.

(** C1: when the similarity search returns no result, or its first result
    scores strictly below 0.6, [queryDatabase] logs an error and returns
    [null]; the chat model is not invoked on that run; and the gate reads
    the first result only: the candidates after it do not change the
    decision. *)
Theorem queryDatabase_gate_returns_null {St : Type} (vs : QdrantVectorStore St)
    (chat : string -> Outcome string) (queryText : string)
    (results : list (Document * Q)) (s : St) :
  similaritySearchWithScore_impl vs s queryText 5 = Returned results ->
  (results = [] \/ exists top rest, results = top :: rest /\ (snd top < 0.6)%Q) ->
  outcome (queryDatabase vs chat queryText s) = Returned None
  /\ events (queryDatabase vs chat queryText s)
     = [SimilaritySearchWithScore queryText 5; LoggerDebugResults results;
        LoggerError "Unable to find matching results."]
  /\ prompts_sent (events (queryDatabase vs chat queryText s)) = []
  /\ (forall top rest rest', no_match (top :: rest) = no_match (top :: rest')).
Proof.
  intros Hsearch Hgate.
  assert (Hno : no_match results = true).
  { destruct Hgate as [-> | (top & rest & -> & Hlt)]; [reflexivity|].
    destruct top as [doc score]. rewrite no_match_cons.
    by apply js_lt_true. }
  rewrite (queryDatabase_rejected vs chat queryText results s Hsearch Hno).
  cbn [outcome events]. rewrite prompts_sent_rejected.
  split; [reflexivity|]. split; [reflexivity|]. split; [reflexivity|].
  intros [doc score] rest rest'. by rewrite !no_match_cons.
Qed.

Lemma queryDatabase_gate_returns_null_witness :
  outcome (queryDatabase (fixedResults [(plainDoc "A", 0.59%Q); (plainDoc "B", 0.75%Q)])
             (constantChat "unused") "Q" tt) = Returned None
  /\ events (queryDatabase (fixedResults [(plainDoc "A", 0.59%Q); (plainDoc "B", 0.75%Q)])
               (constantChat "unused") "Q" tt)
     = [SimilaritySearchWithScore "Q" 5;
        LoggerDebugResults [(plainDoc "A", 0.59%Q); (plainDoc "B", 0.75%Q)];
        LoggerError "Unable to find matching results."]
  /\ prompts_sent (events (queryDatabase
                             (fixedResults [(plainDoc "A", 0.59%Q); (plainDoc "B", 0.75%Q)])
                             (constantChat "unused") "Q" tt)) = []
  /\ (forall top rest rest', no_match (top :: rest) = no_match (top :: rest')).
Proof.
  apply (queryDatabase_gate_returns_null
           (fixedResults [(plainDoc "A", 0.59%Q); (plainDoc "B", 0.75%Q)])
           (constantChat "unused") "Q"
           [(plainDoc "A", 0.59%Q); (plainDoc "B", 0.75%Q)] tt).
  - reflexivity.
  - right. exists (plainDoc "A", 0.59%Q), [(plainDoc "B", 0.75%Q)].
    split; [reflexivity | reflexivity].
Defined.

(** C4, amended: when the first result scores at least 0.6 (0.6 itself
    included) and the chat model answers, [queryDatabase] returns a result
    whose [sources] has one entry per candidate, in the candidates' order;
    the entry is the candidate's [metadata.source] when that value is
    truthy, and [null] when the field is missing or holds a falsy value
    (such as the empty string). *)
Theorem queryDatabase_sources_follow_candidates {St : Type} (vs : QdrantVectorStore St)
    (chat : string -> Outcome string) (queryText : string)
    (top : Document * Q) (rest : list (Document * Q)) (s : St) :
  similaritySearchWithScore_impl vs s queryText 5 = Returned (top :: rest) ->
  (0.6 <= snd top)%Q ->
  (forall prompt, exists text, chat prompt = Returned text) ->
  exists result,
    outcome (queryDatabase vs chat queryText s) = Returned (Some result)
    /\ length (sources result) = length (top :: rest)
    /\ forall i cand, (top :: rest) !! i = Some cand ->
         sources result !! i
         = Some (match metadata (fst cand) !! "source" with
                 | Some v => if truthy v then v else JNull
                 | None => JNull
                 end).
Proof.
  intros Hsearch Hscore Hchat.
  assert (Hno : no_match (top :: rest) = false).
  { destruct top as [doc score]. rewrite no_match_cons. by apply js_lt_false. }
  pose proof (queryDatabase_accepted vs chat queryText _ s Hsearch Hno) as Hrun.
  cbv zeta in Hrun. rewrite Hrun.
  match goal with |- context [chat ?p] => destruct (Hchat p) as [text ->] end.
  eexists. cbn [outcome]. split; [reflexivity|].
  cbn [sources]. split.
  - unfold result_sources. by rewrite length_map.
  - intros i cand Hi. by apply result_sources_lookup.
Qed.

Lemma queryDatabase_sources_follow_candidates_witness :
  exists result,
    outcome (queryDatabase
               (fixedResults [(sourcedDoc "A" (JStr "a.txt"), 0.6%Q); (plainDoc "B", 0.2%Q)])
               (constantChat "answer") "Q" tt) = Returned (Some result)
    /\ length (sources result)
       = length [(sourcedDoc "A" (JStr "a.txt"), 0.6%Q); (plainDoc "B", 0.2%Q)]
    /\ forall i cand,
         [(sourcedDoc "A" (JStr "a.txt"), 0.6%Q); (plainDoc "B", 0.2%Q)] !! i = Some cand ->
         sources result !! i
         = Some (match metadata (fst cand) !! "source" with
                 | Some v => if truthy v then v else JNull
                 | None => JNull
                 end).
Proof.
  apply (queryDatabase_sources_follow_candidates
           (fixedResults [(sourcedDoc "A" (JStr "a.txt"), 0.6%Q); (plainDoc "B", 0.2%Q)])
           (constantChat "answer") "Q"
           (sourcedDoc "A" (JStr "a.txt"), 0.6%Q) [(plainDoc "B", 0.2%Q)] tt).
  - reflexivity.
  - vm_compute. discriminate.
  - intros prompt. exists "answer". reflexivity.
Defined.

(** C4 as stated fails: a candidate whose [source] field is present and is
    the empty string is listed as [null], not as its [metadata.source]. *)
Lemma queryDatabase_empty_source_listed_as_null :
  metadata (sourcedDoc "A" (JStr "")) !! "source" = Some (JStr "")
  /\ outcome (queryDatabase (fixedResults [(sourcedDoc "A" (JStr ""), 0.6%Q)])
                (constantChat "answer") "Q" tt)
     = Returned (Some {| response := "answer"; sources := [JNull] |})
  /\ [JNull] <> spec_sources [(sourcedDoc "A" (JStr ""), 0.6%Q)].
Proof.
  split; [reflexivity|]. split; [reflexivity|].
  vm_compute. discriminate.
Qed.

Lemma prompts_sent_accepted {St : Type} (vs : QdrantVectorStore St)
    (chat : string -> Outcome string) (queryText : string)
    (results : list (Document * Q)) (s : St) :
  similaritySearchWithScore_impl vs s queryText 5 = Returned results ->
  no_match results = false ->
  prompts_sent (events (queryDatabase vs chat queryText s))
  = ["Human: " +:+ LF
       +:+ "Answer the question based only on the following context:"
        +:+ LF +:+ LF +:+ contextText results +:+ LF +:+ LF +:+ "---" +:+ LF +:+ LF
        +:+ "Answer the question based on the above context: "
        +:+ queryText +:+ LF].
Proof.
  intros Hsearch Hno.
  pose proof (queryDatabase_accepted vs chat queryText _ s Hsearch Hno) as Hrun.
  cbv zeta in Hrun. rewrite Hrun.
  match goal with |- context [chat ?p] => destruct (chat p) end; reflexivity.
Qed.

(** C5: whenever the gate passes, the context is the concatenation of the
    content of all the returned candidates, in retrieval order, with
    "\n\n---\n\n" between neighbours, whatever the scores after the first;
    it is the context the prompt handed to the chat model is rendered
    with; and for contents "A" and "B" it is "A\n\n---\n\nB", also when
    the second candidate scores below 0.6. *)
Theorem queryDatabase_context_joins_all_candidates {St : Type}
    (vs : QdrantVectorStore St) (chat : string -> Outcome string)
    (queryText : string) (results : list (Document * Q)) (s : St) :
  similaritySearchWithScore_impl vs s queryText 5 = Returned results ->
  no_match results = false ->
  contextText results
  = String.concat (LF +:+ LF +:+ "---" +:+ LF +:+ LF)
      (map (fun r => pageContent (fst r)) results)
  /\ (exists prompt,
        ChatPromptTemplate_format PROMPT_TEMPLATE
          [("context", String.concat (LF +:+ LF +:+ "---" +:+ LF +:+ LF)
                         (map (fun r => pageContent (fst r)) results));
           ("question", queryText)] = Returned prompt
        /\ prompts_sent (events (queryDatabase vs chat queryText s)) = [prompt])
  /\ contextText [(plainDoc "A", 0.9%Q); (plainDoc "B", 0.75%Q)]
     = "A" +:+ LF +:+ LF +:+ "---" +:+ LF +:+ LF +:+ "B"
  /\ no_match [(plainDoc "A", 0.9%Q); (plainDoc "B", 0.1%Q)] = false
  /\ contextText [(plainDoc "A", 0.9%Q); (plainDoc "B", 0.1%Q)]
     = "A" +:+ LF +:+ LF +:+ "---" +:+ LF +:+ LF +:+ "B".
Proof.
  intros Hsearch Hno.
  assert (Hctx : contextText results
                 = String.concat (LF +:+ LF +:+ "---" +:+ LF +:+ LF)
                     (map (fun r => pageContent (fst r)) results)).
  { unfold contextText. rewrite join_concat. f_equal.
    apply map_ext. by intros [doc score]. }
  split; [exact Hctx|]. split.
  - rewrite <- Hctx. eexists. split; [apply format_PROMPT_TEMPLATE|].
    by apply prompts_sent_accepted.
  - repeat split.
Qed.

Lemma queryDatabase_context_joins_all_candidates_witness :
  contextText [(plainDoc "A", 0.9%Q); (plainDoc "B", 0.1%Q); (plainDoc "C", 0.3%Q)]
  = String.concat (LF +:+ LF +:+ "---" +:+ LF +:+ LF)
      (map (fun r => pageContent (fst r))
         [(plainDoc "A", 0.9%Q); (plainDoc "B", 0.1%Q); (plainDoc "C", 0.3%Q)])
  /\ (exists prompt,
        ChatPromptTemplate_format PROMPT_TEMPLATE
          [("context", String.concat (LF +:+ LF +:+ "---" +:+ LF +:+ LF)
                         (map (fun r => pageContent (fst r))
                            [(plainDoc "A", 0.9%Q); (plainDoc "B", 0.1%Q);
                             (plainDoc "C", 0.3%Q)]));
           ("question", "Q")] = Returned prompt
        /\ prompts_sent
             (events (queryDatabase
                        (fixedResults [(plainDoc "A", 0.9%Q); (plainDoc "B", 0.1%Q);
                                       (plainDoc "C", 0.3%Q)])
                        (constantChat "answer") "Q" tt)) = [prompt])
  /\ contextText [(plainDoc "A", 0.9%Q); (plainDoc "B", 0.75%Q)]
     = "A" +:+ LF +:+ LF +:+ "---" +:+ LF +:+ LF +:+ "B"
  /\ no_match [(plainDoc "A", 0.9%Q); (plainDoc "B", 0.1%Q)] = false
  /\ contextText [(plainDoc "A", 0.9%Q); (plainDoc "B", 0.1%Q)]
     = "A" +:+ LF +:+ LF +:+ "---" +:+ LF +:+ LF +:+ "B".
Proof.
  apply (queryDatabase_context_joins_all_candidates
           (fixedResults [(plainDoc "A", 0.9%Q); (plainDoc "B", 0.1%Q);
                          (plainDoc "C", 0.3%Q)])
           (constantChat "answer") "Q"
           [(plainDoc "A", 0.9%Q); (plainDoc "B", 0.1%Q); (plainDoc "C", 0.3%Q)] tt).
  - reflexivity.
  - reflexivity.
Defined.

(** C6, amended: the template the code renders is the text printed in the
    specification with one line feed before it and one after it; the
    prompt handed to the chat model is the role label "Human: " followed
    by that template with [{context}] replaced by the assembled context
    and [{question}] by the query text, every other character of the
    template kept. *)
Theorem prompt_sent_is_rendered_template {St : Type} (vs : QdrantVectorStore St)
    (chat : string -> Outcome string) (queryText : string)
    (results : list (Document * Q)) (s : St) :
  similaritySearchWithScore_impl vs s queryText 5 = Returned results ->
  no_match results = false ->
  PROMPT_TEMPLATE = LF +:+ SPEC_PROMPT_TEMPLATE +:+ LF
  /\ ChatPromptTemplate_format PROMPT_TEMPLATE
       [("context", contextText results); ("question", queryText)]
     = Returned ("Human: " +:+ LF
       +:+ "Answer the question based only on the following context:"
                 +:+ LF +:+ LF +:+ contextText results
                 +:+ LF +:+ LF +:+ "---" +:+ LF +:+ LF
                 +:+ "Answer the question based on the above context: "
                 +:+ queryText +:+ LF)
  /\ prompts_sent (events (queryDatabase vs chat queryText s))
     = ["Human: " +:+ LF
       +:+ "Answer the question based only on the following context:"
           +:+ LF +:+ LF +:+ contextText results
           +:+ LF +:+ LF +:+ "---" +:+ LF +:+ LF
           +:+ "Answer the question based on the above context: "
           +:+ queryText +:+ LF].
Proof.
  intros Hsearch Hno.
  split; [reflexivity|]. split; [apply format_PROMPT_TEMPLATE|].
  by apply prompts_sent_accepted.
Qed.

Lemma prompt_sent_is_rendered_template_witness :
  PROMPT_TEMPLATE = LF +:+ SPEC_PROMPT_TEMPLATE +:+ LF
  /\ ChatPromptTemplate_format PROMPT_TEMPLATE
       [("context", contextText [(plainDoc "A", 0.9%Q); (plainDoc "B", 0.75%Q)]);
        ("question", "Q")]
     = Returned ("Human: " +:+ LF
       +:+ "Answer the question based only on the following context:"
                 +:+ LF +:+ LF
                 +:+ contextText [(plainDoc "A", 0.9%Q); (plainDoc "B", 0.75%Q)]
                 +:+ LF +:+ LF +:+ "---" +:+ LF +:+ LF
                 +:+ "Answer the question based on the above context: "
                 +:+ "Q" +:+ LF)
  /\ prompts_sent
       (events (queryDatabase
                  (fixedResults [(plainDoc "A", 0.9%Q); (plainDoc "B", 0.75%Q)])
                  (constantChat "answer") "Q" tt))
     = ["Human: " +:+ LF
       +:+ "Answer the question based only on the following context:"
           +:+ LF +:+ LF
           +:+ contextText [(plainDoc "A", 0.9%Q); (plainDoc "B", 0.75%Q)]
           +:+ LF +:+ LF +:+ "---" +:+ LF +:+ LF
           +:+ "Answer the question based on the above context: "
           +:+ "Q" +:+ LF].
Proof.
  apply (prompt_sent_is_rendered_template
           (fixedResults [(plainDoc "A", 0.9%Q); (plainDoc "B", 0.75%Q)])
           (constantChat "answer") "Q"
           [(plainDoc "A", 0.9%Q); (plainDoc "B", 0.75%Q)] tt).
  - reflexivity.
  - reflexivity.
Defined.

(** C6 as stated fails: the prompt handed to the chat model is not the
    specification's template with the two placeholders replaced (with or
    without a final line feed): it starts with the role label and a line
    feed that the printed template does not have; it is not the bare
    substitution of the code's own template either, nor the labelled
    substitution of the printed one. *)
Lemma prompt_sent_differs_from_spec_template :
  exists prompt,
    prompts_sent
      (events (queryDatabase
                 (fixedResults [(plainDoc "A", 0.9%Q); (plainDoc "B", 0.75%Q)])
                 (constantChat "answer") "Q" tt)) = [prompt]
    /\ fstring_format
         [("context", contextText [(plainDoc "A", 0.9%Q); (plainDoc "B", 0.75%Q)]);
          ("question", "Q")] None SPEC_PROMPT_TEMPLATE <> Returned prompt
    /\ fstring_format
         [("context", contextText [(plainDoc "A", 0.9%Q); (plainDoc "B", 0.75%Q)]);
          ("question", "Q")] None (SPEC_PROMPT_TEMPLATE +:+ LF) <> Returned prompt
    /\ fstring_format
         [("context", contextText [(plainDoc "A", 0.9%Q); (plainDoc "B", 0.75%Q)]);
          ("question", "Q")] None PROMPT_TEMPLATE <> Returned prompt
    /\ ChatPromptTemplate_format SPEC_PROMPT_TEMPLATE
         [("context", contextText [(plainDoc "A", 0.9%Q); (plainDoc "B", 0.75%Q)]);
          ("question", "Q")] <> Returned prompt.
Proof.
  eexists. split; [reflexivity|].
  repeat split; vm_compute; discriminate.
Qed.

(** ** The Indexer: construction, loading *)

(** C9: whatever configuration the constructor is given, also one that
    sets [enableLogging] to [false], the resolved [enableLogging] is
    [true]; so on every constructed Indexer [log] and [logError] do write
    their line. *)
Theorem constructor_enableLogging_always_true {St : Type}
    (vs : option (QdrantVectorStore St)) (cfg : option IndexerConfig) :
  enableLogging (config (new_Indexer vs cfg)) = true
  /\ (forall cs co bs,
        enableLogging
          (config (new_Indexer vs (Some (mkIndexerConfig cs co (Some false) bs)))) = true)
  /\ (forall msg s,
        events (log (new_Indexer vs cfg) msg s) = [LoggerInfo ("[Indexer] " +:+ msg)])
  /\ (forall msg s,
        events (logError (new_Indexer vs cfg) msg s) = [LoggerError ("[Indexer] " +:+ msg)]).
Proof.
  split; [apply new_Indexer_logs|]. split; [reflexivity|].
  split; intros msg s; unfold log, logError;
    by rewrite new_Indexer_logs.
Qed.

(** C7: on an empty chunk list [indexDocuments] makes no [addDocuments]
    call, writes one log line and returns, without throwing, whatever the
    fuel, the store and the configuration. *)
Theorem indexDocuments_empty_is_noop {St : Type} (fuel : nat)
    (vs : option (QdrantVectorStore St)) (cfg : option IndexerConfig) (s : St) :
  outcome (indexDocuments fuel (new_Indexer vs cfg) [] s) = Returned tt
  /\ add_calls (events (indexDocuments fuel (new_Indexer vs cfg) [] s)) = []
  /\ events (indexDocuments fuel (new_Indexer vs cfg) [] s)
     = [LoggerInfo "[Indexer] No chunks to save"]
  /\ store (indexDocuments fuel (new_Indexer vs cfg) [] s) = s.
Proof.
  unfold indexDocuments. cbn [length Nat.eqb].
  rewrite log_enabled by apply new_Indexer_logs.
  repeat split.
Qed.

Lemma tag_metadata_loadedFrom (folderPath : string) (m : gmap string JsValue) :
  tag_metadata folderPath m !! "loadedFrom" = Some (JStr "local_folder").
Proof.
  unfold tag_metadata.
  rewrite lookup_insert_ne by discriminate. apply lookup_insert_eq.
Qed.

Lemma tag_metadata_folderPath (folderPath : string) (m : gmap string JsValue) :
  tag_metadata folderPath m !! "folderPath" = Some (JStr folderPath).
Proof. unfold tag_metadata. apply lookup_insert_eq. Qed.

Lemma tag_metadata_other (folderPath key : string) (m : gmap string JsValue) :
  key <> "loadedFrom" -> key <> "folderPath" ->
  tag_metadata folderPath m !! key = m !! key.
Proof.
  intros H1 H2. unfold tag_metadata.
  rewrite !lookup_insert_ne by congruence. reflexivity.
Qed.

Lemma loadDocuments_loaded {St : Type} (load : string -> Outcome (list Document))
    (self : Indexer St) (folderPath : string) (loaded : list Document) (s : St) :
  load folderPath = Returned loaded ->
  outcome (loadDocuments load self folderPath s)
  = Returned (map (tag_document folderPath) loaded).
Proof.
  intros Hload. unfold loadDocuments, try_catch, bind, await, emit, log. cbn.
  rewrite Hload. cbn. destruct (enableLogging (config self)); reflexivity.
Qed.

(** C8: when the directory loader answers, [loadDocuments] returns one
    document per loaded document, in order and with the same content;
    its metadata has [loadedFrom = "local_folder"] and [folderPath] = the
    argument, and every other key reads as the parser left it (none
    removed, none changed, none added). *)
Theorem loadDocuments_merges_provenance {St : Type}
    (load : string -> Outcome (list Document)) (self : Indexer St)
    (folderPath : string) (loaded : list Document) (s : St) :
  load folderPath = Returned loaded ->
  exists documents,
    outcome (loadDocuments load self folderPath s) = Returned documents
    /\ length documents = length loaded
    /\ forall i doc, documents !! i = Some doc ->
         metadata doc !! "loadedFrom" = Some (JStr "local_folder")
         /\ metadata doc !! "folderPath" = Some (JStr folderPath)
         /\ exists parsed,
              loaded !! i = Some parsed
              /\ pageContent doc = pageContent parsed
              /\ forall key, key <> "loadedFrom" -> key <> "folderPath" ->
                   metadata doc !! key = metadata parsed !! key.
Proof.
  intros Hload. exists (map (tag_document folderPath) loaded).
  split; [by apply loadDocuments_loaded|].
  split; [by rewrite length_map|].
  intros i doc Hi. rewrite list_lookup_fmap in Hi.
  destruct (loaded !! i) as [parsed|] eqn:Hparsed; [|discriminate].
  cbn in Hi. injection Hi as <-. cbn [tag_document metadata pageContent].
  split; [apply tag_metadata_loadedFrom|].
  split; [apply tag_metadata_folderPath|].
  exists parsed. split; [reflexivity|]. split; [reflexivity|].
  intros key H1 H2. by apply tag_metadata_other.
Qed.

Lemma loadDocuments_merges_provenance_witness :
  exists documents,
    outcome (loadDocuments (fixedLoader [sourcedDoc "hello" (JStr "data/a.txt")])
               (new_Indexer (St := unit) None None) "./data" tt) = Returned documents
    /\ length documents = length [sourcedDoc "hello" (JStr "data/a.txt")]
    /\ forall i doc, documents !! i = Some doc ->
         metadata doc !! "loadedFrom" = Some (JStr "local_folder")
         /\ metadata doc !! "folderPath" = Some (JStr "./data")
         /\ exists parsed,
              [sourcedDoc "hello" (JStr "data/a.txt")] !! i = Some parsed
              /\ pageContent doc = pageContent parsed
              /\ forall key, key <> "loadedFrom" -> key <> "folderPath" ->
                   metadata doc !! key = metadata parsed !! key.
Proof.
  apply (loadDocuments_merges_provenance
           (fixedLoader [sourcedDoc "hello" (JStr "data/a.txt")])
           (new_Indexer (St := unit) None None) "./data"
           [sourcedDoc "hello" (JStr "data/a.txt")] tt).
  reflexivity.
Defined.

(** ** The Indexer: batching *)

Section Batching.
Context {St : Type}.
Variable self : Indexer St.
Variable chunks : list Document.

Lemma log_run (msg : string) (s : St) :
  log self msg s = mkRes (Returned tt) s (log_events self msg).
Proof. unfold log, log_events. destruct (enableLogging (config self)); reflexivity. Qed.

Lemma log_events_enabled (msg : string) :
  enableLogging (config self) = true ->
  log_events self msg = [LoggerInfo ("[Indexer] " +:+ msg)].
Proof. intros H. unfold log_events. by rewrite H. Qed.

Lemma add_calls_log_events (msg : string) : add_calls (log_events self msg) = [].
Proof. unfold log_events. destruct (enableLogging (config self)); reflexivity. Qed.

Lemma add_calls_app (l1 l2 : list Event) :
  add_calls (l1 ++ l2) = add_calls l1 ++ add_calls l2.
Proof. apply omap_app. Qed.

Lemma add_calls_AddDocuments (b : list Document) (l : list Event) :
  add_calls (AddDocuments b :: l) = b :: add_calls l.
Proof. reflexivity. Qed.

Lemma bind_ext {A B : Type} (m : M St A) (k1 k2 : A -> M St B) (s : St) :
  (forall a s', k1 a s' = k2 a s') -> bind m k1 s = bind m k2 s.
Proof.
  intros Hk. unfold bind. destruct (outcome (m s)); [|reflexivity..].
  by rewrite Hk.
Qed.

Lemma process_batches_cons (j : nat) (b : list Document) (bs : list (list Document)) (s : St) :
  process_batches self chunks j (b :: bs) s
  = match vectorStore self with
    | None =>
        mkRes (outcome (process_batches self chunks (S j) bs s))
              (store (process_batches self chunks (S j) bs s))
              (log_events self (batch_message self chunks j b) ++ events (process_batches self chunks (S j) bs s))
    | Some vs =>
        match addDocuments_impl vs s b with
        | (s', None) =>
            mkRes (outcome (process_batches self chunks (S j) bs s'))
                  (store (process_batches self chunks (S j) bs s'))
                  (log_events self (batch_message self chunks j b)
                   ++ AddDocuments b :: events (process_batches self chunks (S j) bs s'))
        | (s', Some e) =>
            mkRes (Threw e) s'
                  (log_events self (batch_message self chunks j b)
                   ++ AddDocuments b
                   :: log_events self ("Error processing batch: " +:+ error_toString e))
        end
    end.
Proof.
  cbn [process_batches].
  unfold bind, try_catch, vectorStore_addDocuments, addDocuments, log, log_events,
    throw, ret, emit.
  destruct (enableLogging (config self)), (vectorStore self) as [vs|];
    [destruct (addDocuments_impl vs s b) as [s' [e|]] eqn:E | |
     destruct (addDocuments_impl vs s b) as [s' [e|]] eqn:E | ];
    cbn -[process_batches batch_message error_toString String.append];
    rewrite ?E;
    cbn -[process_batches batch_message error_toString String.append];
    reflexivity.
Qed.

Lemma Math_ceil_div_bounds (N B : Z) :
  0 < B -> 0 <= N ->
  0 <= Math_ceil_div N B
  /\ N <= Math_ceil_div N B * B
  /\ Math_ceil_div N B * B < N + B.
Proof.
  intros HB HN. unfold Math_ceil_div.
  pose proof (Z.div_mod (- N) B ltac:(lia)) as Hdm.
  pose proof (Z.mod_pos_bound (- N) B HB) as Hmod.
  nia.
Qed.

Lemma batch_count_le_length :
  0 < batchSize (config self) ->
  (batch_count (batchSize (config self)) chunks <= length chunks)%nat.
Proof.
  intros HB. unfold batch_count.
  pose proof (Math_ceil_div_bounds (Z.of_nat (length chunks)) _ HB ltac:(lia))
    as (H0 & H1 & H2).
  nia.
Qed.

Lemma batch_index_in_range (j : nat) :
  0 < batchSize (config self) ->
  (j < batch_count (batchSize (config self)) chunks)%nat
  <-> Z.of_nat j * batchSize (config self) < Z.of_nat (length chunks).
Proof.
  intros HB. unfold batch_count.
  pose proof (Math_ceil_div_bounds (Z.of_nat (length chunks)) _ HB ltac:(lia))
    as (H0 & H1 & H2).
  split; intros H; nia.
Qed.

(** Inside the array, [slice(i, i + B)] at a multiple of [B] is the batch. *)
Lemma slice_batch_at (j : nat) :
  0 < batchSize (config self) ->
  Z.of_nat j * batchSize (config self) < Z.of_nat (length chunks) ->
  slice chunks (Z.of_nat j * batchSize (config self))
        (Z.of_nat j * batchSize (config self) + batchSize (config self))
  = batch_at (Z.to_nat (batchSize (config self))) chunks j.
Proof.
  intros HB Hj. unfold slice, batch_at.
  set (B := batchSize (config self)) in *.
  destruct (Z.ltb_spec (Z.of_nat j * B) 0) as [?|_]; [nia|].
  destruct (Z.ltb_spec (Z.of_nat j * B + B) 0) as [?|_]; [nia|].
  replace (Z.to_nat (Z.min (Z.of_nat j * B) (Z.of_nat (length chunks))))
    with (j * Z.to_nat B)%nat by nia.
  destruct (Z.le_gt_cases (Z.of_nat j * B + B) (Z.of_nat (length chunks))) as [Hin|Hout].
  - f_equal. nia.
  - rewrite !take_ge; [reflexivity | rewrite length_drop; nia..].
Qed.

(** The loop walks the batches: from position [j * B] on it does what
    [process_batches] does on the batches from [j] on. *)
Lemma indexDocuments_for_batches :
  0 < batchSize (config self) ->
  forall (m j fuel : nat) (s : St),
    (j + m)%nat = batch_count (batchSize (config self)) chunks ->
    (m < fuel)%nat ->
    indexDocuments_for fuel self chunks (Z.of_nat j * batchSize (config self)) s
    = process_batches self chunks j
        (map (batch_at (Z.to_nat (batchSize (config self))) chunks) (seq j m)) s.
Proof.
  intros HB. induction m as [|m IH]; intros j fuel s Hn Hfuel;
    (destruct fuel as [|fuel]; [lia|]); cbn [indexDocuments_for seq map].
  - destruct (Z.ltb_spec (Z.of_nat j * batchSize (config self))
                         (Z.of_nat (length chunks))) as [Hlt|_]; [|reflexivity].
    apply batch_index_in_range in Hlt; [lia | exact HB].
  - assert (Hj : Z.of_nat j * batchSize (config self) < Z.of_nat (length chunks)).
    { apply batch_index_in_range; [exact HB | lia]. }
    destruct (Z.ltb_spec (Z.of_nat j * batchSize (config self))
                         (Z.of_nat (length chunks))) as [_|?]; [|lia].
    rewrite (slice_batch_at j HB Hj).
    unfold Math_floor_div. rewrite Z.div_mul by lia.
    cbn [process_batches]. fold (batch_message self chunks j (batch_at (Z.to_nat (batchSize (config self))) chunks j)).
    apply bind_ext. intros _ s1. apply bind_ext. intros _ s2.
    replace (Z.of_nat j * batchSize (config self) + batchSize (config self))
      with (Z.of_nat (S j) * batchSize (config self)) by lia.
    apply IH; lia.
Qed.

(** The batches are the chunk list, cut consecutively. *)
Lemma concat_batch_at (B n : nat) :
  concat (map (batch_at B chunks) (seq 0 n)) = take (n * B) chunks.
Proof.
  induction n as [|n IH]; [reflexivity|].
  rewrite seq_S, map_app, concat_app, IH. cbn [map concat Nat.add].
  rewrite app_nil_r. unfold batch_at. rewrite take_take_drop.
  f_equal. lia.
Qed.

Lemma concat_batches :
  0 < batchSize (config self) ->
  concat (batches (batchSize (config self)) chunks) = chunks.
Proof.
  intros HB. unfold batches. rewrite concat_batch_at.
  apply take_ge. unfold batch_count.
  pose proof (Math_ceil_div_bounds (Z.of_nat (length chunks)) _ HB ltac:(lia))
    as (H0 & H1 & H2).
  nia.
Qed.

Lemma batches_nil (B : Z) : B <> 0 -> batches B [] = [].
Proof.
  intros HB. unfold batches, batch_count, Math_ceil_div.
  cbn [length Z.of_nat Z.opp]. by rewrite Z.div_0_l.
Qed.

Lemma length_batches :
  length (batches (batchSize (config self)) chunks)
  = batch_count (batchSize (config self)) chunks.
Proof. unfold batches. by rewrite length_map, length_seq. Qed.

Lemma batches_lookup (j : nat) (b : list Document) :
  batches (batchSize (config self)) chunks !! j = Some b ->
  (j < batch_count (batchSize (config self)) chunks)%nat
  /\ b = batch_at (Z.to_nat (batchSize (config self))) chunks j.
Proof.
  unfold batches. rewrite list_lookup_fmap. intros H.
  destruct (seq 0 (batch_count (batchSize (config self)) chunks) !! j) as [j'|] eqn:E;
    [|discriminate].
  apply lookup_seq in E as [-> Hlt]. cbn in H. injection H as <-. by split.
Qed.

Lemma length_batch_at_le (B j : nat) : (length (batch_at B chunks j) <= B)%nat.
Proof. unfold batch_at. rewrite length_take. lia. Qed.

(** Every batch but the last is full. *)
Lemma length_batch_at_full (j : nat) :
  0 < batchSize (config self) ->
  (S j < batch_count (batchSize (config self)) chunks)%nat ->
  length (batch_at (Z.to_nat (batchSize (config self))) chunks j)
  = Z.to_nat (batchSize (config self)).
Proof.
  intros HB Hj. apply (batch_index_in_range (S j) HB) in Hj.
  unfold batch_at. rewrite length_take, length_drop. nia.
Qed.

(** The last batch is not empty. *)
Lemma length_batch_at_pos (j : nat) :
  0 < batchSize (config self) ->
  (j < batch_count (batchSize (config self)) chunks)%nat ->
  (0 < length (batch_at (Z.to_nat (batchSize (config self))) chunks j))%nat.
Proof.
  intros HB Hj. apply (batch_index_in_range j HB) in Hj.
  unfold batch_at. rewrite length_take, length_drop. nia.
Qed.

(** With a store whose calls all succeed, every batch is handed over. *)
Lemma process_batches_all_succeed (vs : QdrantVectorStore St) :
  vectorStore self = Some vs ->
  forall (bs : list (list Document)) (j : nat) (s : St),
    first_failure vs s bs = None ->
    outcome (process_batches self chunks j bs s) = Returned tt
    /\ add_calls (events (process_batches self chunks j bs s)) = bs
    /\ store (process_batches self chunks j bs s) = store_after vs s bs.
Proof.
  intros Hvs. induction bs as [|b bs IH]; intros j s Hff; [by repeat split|].
  rewrite process_batches_cons, Hvs. cbn [first_failure store_after foldl] in *.
  destruct (addDocuments_impl vs s b) as [s' [e|]]; [discriminate|].
  destruct (first_failure vs s' bs) as [[k e]|] eqn:Hrest; [discriminate|].
  destruct (IH (S j) s' Hrest) as (Ho & Hc & Hs).
  cbn [outcome store events fst].
  rewrite add_calls_app, add_calls_log_events, add_calls_AddDocuments.
  by rewrite Ho, Hc, Hs.
Qed.

(** When call [k] (from 0) is the first to throw, the run stops there. *)
Lemma process_batches_first_failure (vs : QdrantVectorStore St) :
  vectorStore self = Some vs ->
  forall (bs : list (list Document)) (j : nat) (s : St) (k : nat) (e : JsError),
    first_failure vs s bs = Some (k, e) ->
    outcome (process_batches self chunks j bs s) = Threw e
    /\ add_calls (events (process_batches self chunks j bs s)) = take (S k) bs
    /\ (k < length bs)%nat
    /\ store (process_batches self chunks j bs s) = store_after vs s (take (S k) bs)
    /\ exists before b,
         bs !! k = Some b
         /\ events (process_batches self chunks j bs s)
            = before ++ AddDocuments b
              :: log_events self ("Error processing batch: " +:+ error_toString e).
Proof.
  intros Hvs. induction bs as [|b bs IH]; intros j s k e Hff; [discriminate|].
  rewrite process_batches_cons, Hvs. cbn [first_failure] in Hff.
  destruct (addDocuments_impl vs s b) as [s' [e'|]] eqn:Hadd.
  - injection Hff as <- <-. cbn [outcome store events].
    rewrite add_calls_app, add_calls_AddDocuments, !add_calls_log_events.
    cbn [take store_after foldl length app].
    rewrite Hadd. cbn [fst].
    split; [reflexivity|]. split; [reflexivity|]. split; [lia|]. split; [reflexivity|].
    exists (log_events self (batch_message self chunks j b)), b. by split.
  - destruct (first_failure vs s' bs) as [[k' e']|] eqn:Hrest; [|discriminate].
    injection Hff as <- <-.
    destruct (IH (S j) s' k' e' Hrest) as (Ho & Hc & Hk & Hs & before & bk & Hbk & Hev).
    cbn [outcome store events].
    rewrite add_calls_app, add_calls_AddDocuments, add_calls_log_events.
    rewrite Ho, Hc, Hs. cbn [take store_after foldl length app]. rewrite Hadd. cbn [fst].
    split; [reflexivity|]. split; [reflexivity|]. split; [lia|]. split; [reflexivity|].
    exists (log_events self (batch_message self chunks j b) ++ AddDocuments b :: before), bk.
    split; [exact Hbk|]. rewrite Hev. by rewrite <- app_assoc.
Qed.

(** Without a store every batch is walked, none handed over. *)
Lemma process_batches_no_store :
  vectorStore self = None ->
  forall (bs : list (list Document)) (j : nat) (s : St),
    outcome (process_batches self chunks j bs s) = Returned tt
    /\ add_calls (events (process_batches self chunks j bs s)) = []
    /\ store (process_batches self chunks j bs s) = s.
Proof.
  intros Hvs. induction bs as [|b bs IH]; intros j s; [by repeat split|].
  rewrite process_batches_cons, Hvs. cbn [outcome store events].
  destruct (IH (S j) s) as (Ho & Hc & Hs).
  rewrite add_calls_app, add_calls_log_events, Hc.
  by repeat split.
Qed.

(** [indexDocuments] on a non-empty list, through [process_batches]. *)
Lemma indexDocuments_run (fuel : nat) (s : St) :
  chunks <> [] ->
  0 < batchSize (config self) ->
  (length chunks < fuel)%nat ->
  indexDocuments fuel self chunks s
  = (log self ("Saving " +:+ pretty (length chunks) +:+ " chunks to vector store...") ;;;
     process_batches self chunks 0 (batches (batchSize (config self)) chunks) ;;;
     log self "Successfully saved all chunks to vector store") s.
Proof.
  intros Hne HB Hfuel. unfold indexDocuments.
  destruct chunks as [|c cs] eqn:Hchunks; [done|]. rewrite <- Hchunks in *.
  replace (length chunks =? 0)%nat with false
    by (symmetry; apply Nat.eqb_neq; rewrite Hchunks; cbn; lia).
  apply bind_ext. intros _ s1.
  pose proof batch_count_le_length HB as Hle.
  pose proof (indexDocuments_for_batches HB
                (batch_count (batchSize (config self)) chunks) 0 fuel s1
                eq_refl ltac:(lia)) as Hloop.
  change (Z.of_nat 0 * batchSize (config self)) with 0 in Hloop.
  unfold bind. rewrite Hloop. reflexivity.
Qed.

Lemma indexDocuments_result (fuel : nat) (s : St) :
  chunks <> [] ->
  0 < batchSize (config self) ->
  (length chunks < fuel)%nat ->
  indexDocuments fuel self chunks s
  = match outcome (process_batches self chunks 0 (batches (batchSize (config self)) chunks) s) with
    | Returned _ =>
        mkRes (Returned tt)
          (store (process_batches self chunks 0 (batches (batchSize (config self)) chunks) s))
          (log_events self ("Saving " +:+ pretty (length chunks) +:+ " chunks to vector store...")
           ++ events (process_batches self chunks 0 (batches (batchSize (config self)) chunks) s)
           ++ log_events self "Successfully saved all chunks to vector store")
    | Threw e =>
        mkRes (Threw e)
          (store (process_batches self chunks 0 (batches (batchSize (config self)) chunks) s))
          (log_events self ("Saving " +:+ pretty (length chunks) +:+ " chunks to vector store...")
           ++ events (process_batches self chunks 0 (batches (batchSize (config self)) chunks) s))
    | OutOfFuel =>
        mkRes OutOfFuel
          (store (process_batches self chunks 0 (batches (batchSize (config self)) chunks) s))
          (log_events self ("Saving " +:+ pretty (length chunks) +:+ " chunks to vector store...")
           ++ events (process_batches self chunks 0 (batches (batchSize (config self)) chunks) s))
    end.
Proof.
  intros Hne HB Hfuel. rewrite (indexDocuments_run fuel s Hne HB Hfuel).
  unfold bind. rewrite !log_run. cbn [outcome store events].
  destruct (outcome (process_batches self chunks 0 (batches (batchSize (config self)) chunks) s));
    cbn [outcome store events]; rewrite ?log_run; reflexivity.
Qed.
End Batching.

(** C2: with a store attached whose calls succeed and a positive batch
    size [B], [indexDocuments] on a non-empty list of [N] chunks returns
    after exactly [ceil(N / B)] [addDocuments] calls; call [j] (from 0)
    receives the chunks at positions [j * B] to [j * B + B - 1], so at most
    [B] of them and exactly [B] unless it is the last call; the batches, in
    call order, concatenate to the chunk list. *)
Theorem indexDocuments_partitions_into_batches {St : Type} (self : Indexer St)
    (vs : QdrantVectorStore St) (chunks : list Document) (fuel : nat) (s : St) :
  vectorStore self = Some vs ->
  chunks <> [] ->
  0 < batchSize (config self) ->
  (length chunks < fuel)%nat ->
  first_failure vs s (batches (batchSize (config self)) chunks) = None ->
  outcome (indexDocuments fuel self chunks s) = Returned tt
  /\ length (add_calls (events (indexDocuments fuel self chunks s)))
     = Z.to_nat (Math_ceil_div (Z.of_nat (length chunks)) (batchSize (config self)))
  /\ (forall j b,
        add_calls (events (indexDocuments fuel self chunks s)) !! j = Some b ->
        Z.of_nat (length b) <= batchSize (config self)
        /\ (0 < length b)%nat
        /\ ((S j < length (add_calls (events (indexDocuments fuel self chunks s))))%nat ->
            Z.of_nat (length b) = batchSize (config self))
        /\ b = slice chunks (Z.of_nat j * batchSize (config self))
                 (Z.of_nat j * batchSize (config self) + batchSize (config self))
        /\ b = take (Z.to_nat (batchSize (config self)))
                 (drop (j * Z.to_nat (batchSize (config self))) chunks))
  /\ concat (add_calls (events (indexDocuments fuel self chunks s))) = chunks.
Proof.
  intros Hvs Hne HB Hfuel Hok.
  rewrite (indexDocuments_result self chunks fuel s Hne HB Hfuel).
  destruct (process_batches_all_succeed self chunks vs Hvs _ 0%nat s Hok)
    as (Ho & Hc & _).
  rewrite Ho. cbn [outcome events].
  rewrite !add_calls_app, !add_calls_log_events, Hc, app_nil_r. cbn [app].
  split; [reflexivity|]. split; [apply length_batches|].
  split; [|by apply concat_batches].
  intros j b Hb. apply batches_lookup in Hb as [Hj ->].
  rewrite length_batches.
  split.
  { pose proof (length_batch_at_le chunks (Z.to_nat (batchSize (config self))) j). lia. }
  split; [by apply length_batch_at_pos|].
  split.
  { intros HS. rewrite (length_batch_at_full self chunks j HB HS). lia. }
  split; [|reflexivity].
  symmetry. apply slice_batch_at; [exact HB|].
  by apply batch_index_in_range.
Qed.

Lemma indexDocuments_partitions_into_batches_witness :
  outcome (indexDocuments 6 (new_Indexer (Some appendStore) batchesOfTwo) fiveChunks [])
  = Returned tt
  /\ add_calls (events (indexDocuments 6 (new_Indexer (Some appendStore) batchesOfTwo)
                          fiveChunks []))
     = [[plainDoc "a"; plainDoc "b"]; [plainDoc "c"; plainDoc "d"]; [plainDoc "e"]]
  /\ length (add_calls (events (indexDocuments 6
                                  (new_Indexer (Some appendStore) batchesOfTwo)
                                  fiveChunks [])))
     = Z.to_nat (Math_ceil_div 5 2).
Proof.
  pose proof (indexDocuments_partitions_into_batches
                (new_Indexer (Some appendStore) batchesOfTwo) appendStore
                fiveChunks 6 []) as H.
  destruct H as (Hout & Hlen & _ & _).
  - reflexivity.
  - discriminate.
  - reflexivity.
  - unfold fiveChunks. simpl. lia.
  - reflexivity.
  - split; [exact Hout|]. split; [reflexivity | exact Hlen].
Defined.

(** C3: when the [addDocuments] call for batch [k + 1] is the first to
    throw, [indexDocuments] logs the error right after that call (the line
    "Error processing batch: " and the error as JavaScript renders it: its
    name, a colon and its message, or the one of the two that is not
    empty) and throws the same error; the calls made are those for the
    batches up to that one, none for a later batch; and the database is
    left as those calls left it, nothing being undone. *)
Theorem indexDocuments_aborts_on_failed_batch {St : Type} (vs : QdrantVectorStore St)
    (cfg : option IndexerConfig) (chunks : list Document) (fuel : nat) (s : St)
    (k : nat) (e : JsError) :
  0 < batchSize (config (new_Indexer (Some vs) cfg)) ->
  (length chunks < fuel)%nat ->
  first_failure vs s (batches (batchSize (config (new_Indexer (Some vs) cfg))) chunks)
  = Some (k, e) ->
  outcome (indexDocuments fuel (new_Indexer (Some vs) cfg) chunks s) = Threw e
  /\ add_calls (events (indexDocuments fuel (new_Indexer (Some vs) cfg) chunks s))
     = take (S k) (batches (batchSize (config (new_Indexer (Some vs) cfg))) chunks)
  /\ length (add_calls (events (indexDocuments fuel (new_Indexer (Some vs) cfg) chunks s)))
     = S k
  /\ (S k <= batch_count (batchSize (config (new_Indexer (Some vs) cfg))) chunks)%nat
  /\ (exists before b,
        batches (batchSize (config (new_Indexer (Some vs) cfg))) chunks !! k = Some b
        /\ events (indexDocuments fuel (new_Indexer (Some vs) cfg) chunks s)
           = before ++ [AddDocuments b;
                        LoggerInfo ("[Indexer] Error processing batch: "
                                    +:+ (if String.eqb (name e) "" then message e
                                         else if String.eqb (message e) "" then name e
                                         else name e +:+ ": " +:+ message e))])
  /\ store (indexDocuments fuel (new_Indexer (Some vs) cfg) chunks s)
     = store_after vs s
         (take (S k) (batches (batchSize (config (new_Indexer (Some vs) cfg))) chunks)).
Proof.
  intros HB Hfuel Hfail.
  set (self := new_Indexer (Some vs) cfg) in *.
  assert (Hne : chunks <> []).
  { intros ->. rewrite batches_nil in Hfail by lia. discriminate. }
  rewrite (indexDocuments_result self chunks fuel s Hne HB Hfuel).
  destruct (process_batches_first_failure self chunks vs eq_refl _ 0%nat s k e Hfail)
    as (Ho & Hc & Hk & Hs & before & b & Hb & Hev).
  rewrite Ho. cbn [outcome events store].
  rewrite add_calls_app, add_calls_log_events, Hc. cbn [app].
  rewrite length_batches in Hk.
  split; [reflexivity|]. split; [reflexivity|].
  split; [rewrite length_take, length_batches; lia|].
  split; [lia|]. split; [|exact Hs].
  exists (log_events self ("Saving " +:+ pretty (length chunks)
                           +:+ " chunks to vector store...") ++ before), b.
  split; [exact Hb|]. rewrite Hev, <- app_assoc.
  rewrite (log_events_enabled self ("Error processing batch: " +:+ error_toString e));
    [reflexivity | apply new_Indexer_logs].
Qed.

Lemma indexDocuments_aborts_on_failed_batch_witness :
  outcome (indexDocuments 6 (new_Indexer (Some (rejectingStore "c")) batchesOfTwo)
             fiveChunks [])
  = Threw (mkError "write failed")
  /\ add_calls (events (indexDocuments 6 (new_Indexer (Some (rejectingStore "c")) batchesOfTwo)
                          fiveChunks []))
     = [[plainDoc "a"; plainDoc "b"]; [plainDoc "c"; plainDoc "d"]]
  /\ store (indexDocuments 6 (new_Indexer (Some (rejectingStore "c")) batchesOfTwo)
              fiveChunks [])
     = [plainDoc "a"; plainDoc "b"]
  /\ events (indexDocuments 6 (new_Indexer (Some (rejectingStore "c")) batchesOfTwo)
               fiveChunks [])
     = [LoggerInfo "[Indexer] Saving 5 chunks to vector store...";
        LoggerInfo "[Indexer] Processing batch 1/3 (2 chunks)";
        AddDocuments [plainDoc "a"; plainDoc "b"];
        LoggerInfo "[Indexer] Processing batch 2/3 (2 chunks)";
        AddDocuments [plainDoc "c"; plainDoc "d"];
        LoggerInfo "[Indexer] Error processing batch: Error: write failed"]
  /\ (exists before,
        events (indexDocuments 2
                  (new_Indexer (Some (throwingStore (mkJsError "TypeError" "bad input")))
                     None)
                  [plainDoc "a"] tt)
        = before ++ [AddDocuments [plainDoc "a"];
                     LoggerInfo "[Indexer] Error processing batch: TypeError: bad input"])
  /\ (exists before,
        events (indexDocuments 2 (new_Indexer (Some (throwingStore (mkError ""))) None)
                  [plainDoc "a"] tt)
        = before ++ [AddDocuments [plainDoc "a"];
                     LoggerInfo "[Indexer] Error processing batch: Error"]).
Proof.
  pose proof (indexDocuments_aborts_on_failed_batch (rejectingStore "c") batchesOfTwo
                fiveChunks 6 [] 1 (mkError "write failed")) as H.
  destruct H as (Hout & Hcalls & _ & _ & _ & Hstore).
  - reflexivity.
  - unfold fiveChunks. simpl. lia.
  - reflexivity.
  - split; [exact Hout|]. split; [exact Hcalls|]. split; [exact Hstore|].
    split; [reflexivity|]. split.
    + pose proof (indexDocuments_aborts_on_failed_batch
                    (throwingStore (mkJsError "TypeError" "bad input")) None
                    [plainDoc "a"] 2 tt 0 (mkJsError "TypeError" "bad input")) as H.
      destruct H as (_ & _ & _ & _ & (before & b & Hb & Hev) & _).
      * reflexivity.
      * simpl. lia.
      * reflexivity.
      * exists before. injection Hb as <-. exact Hev.
    + pose proof (indexDocuments_aborts_on_failed_batch
                    (throwingStore (mkError "")) None
                    [plainDoc "a"] 2 tt 0 (mkError "")) as H.
      destruct H as (_ & _ & _ & _ & (before & b & Hb & Hev) & _).
      * reflexivity.
      * simpl. lia.
      * reflexivity.
      * exists before. injection Hb as <-. exact Hev.
Defined.

(** C10: an Indexer constructed without a vector store, with a positive
    batch size, walks a non-empty chunk list without any [addDocuments]
    call, returns without throwing and ends on the success log line. *)
Theorem indexDocuments_without_store_reports_success {St : Type}
    (cfg : option IndexerConfig) (chunks : list Document) (fuel : nat) (s : St) :
  chunks <> [] ->
  0 < batchSize (config (new_Indexer (St := St) None cfg)) ->
  (length chunks < fuel)%nat ->
  outcome (indexDocuments fuel (new_Indexer None cfg) chunks s) = Returned tt
  /\ add_calls (events (indexDocuments fuel (new_Indexer None cfg) chunks s)) = []
  /\ store (indexDocuments fuel (new_Indexer None cfg) chunks s) = s
  /\ last (events (indexDocuments fuel (new_Indexer None cfg) chunks s))
     = Some (LoggerInfo "[Indexer] Successfully saved all chunks to vector store").
Proof.
  intros Hne HB Hfuel.
  set (self := new_Indexer (St := St) None cfg) in *.
  rewrite (indexDocuments_result self chunks fuel s Hne HB Hfuel).
  destruct (process_batches_no_store self chunks eq_refl
              (batches (batchSize (config self)) chunks) 0%nat s) as (Ho & Hc & Hs).
  rewrite Ho. cbn [outcome events store].
  rewrite !add_calls_app, !add_calls_log_events, Hc.
  split; [reflexivity|]. split; [reflexivity|]. split; [exact Hs|].
  rewrite (log_events_enabled self "Successfully saved all chunks to vector store")
    by apply new_Indexer_logs.
  by rewrite app_assoc, last_snoc.
Qed.

Lemma indexDocuments_without_store_reports_success_witness :
  outcome (indexDocuments 6 (new_Indexer None None) fiveChunks tt) = Returned tt
  /\ add_calls (events (indexDocuments 6 (new_Indexer None None) fiveChunks tt)) = []
  /\ store (indexDocuments 6 (new_Indexer None None) fiveChunks tt) = tt
  /\ last (events (indexDocuments 6 (new_Indexer None None) fiveChunks tt))
     = Some (LoggerInfo "[Indexer] Successfully saved all chunks to vector store").
Proof.
  apply (indexDocuments_without_store_reports_success None fiveChunks 6 tt).
  - discriminate.
  - reflexivity.
  - unfold fiveChunks. simpl. lia.
Defined.

(** Why the batch size has to be positive above: with a negative one the
    position never reaches the end of the list, and the loop does not
    stop, whatever the fuel. *)
Lemma indexDocuments_for_negative_batchSize {St : Type} (self : Indexer St)
    (chunks : list Document) :
  batchSize (config self) < 0 ->
  chunks <> [] ->
  (forall b s, outcome (vectorStore_addDocuments self b s) = Returned tt) ->
  forall (fuel : nat) (i : Z) (s : St),
    i <= 0 -> outcome (indexDocuments_for fuel self chunks i s) = OutOfFuel.
Proof.
  intros HB Hne Hadd. induction fuel as [|fuel IH]; intros i s Hi; [reflexivity|].
  cbn [indexDocuments_for].
  assert (Hlen : (0 < length chunks)%nat) by (destruct chunks; [done | cbn; lia]).
  destruct (Z.ltb_spec i (Z.of_nat (length chunks))) as [_|?]; [|lia].
  unfold bind. rewrite log_run. cbn [outcome store events].
  unfold try_catch. rewrite Hadd. cbn [outcome store events].
  rewrite IH by lia. by rewrite Hadd.
Qed.

Example indexDocuments_negative_batchSize_runs_out :
  outcome (indexDocuments 50
             (new_Indexer None (Some {| cfg_chunkSize := None; cfg_chunkOverlap := None;
                                        cfg_enableLogging := None;
                                        cfg_batchSize := Some (-2) |}))
             fiveChunks tt) = OutOfFuel.
Proof. reflexivity. Qed.


(** * Further properties *)

(** ** The text splitter stage *)

Lemma pbind_Returned {St A B : Type} (m : P St A) (k : A -> P St B) (s s' : St)
    (a : A) (t : list IndexerEvent) :
  m s = mkRun (Returned a) s' t ->
  pbind m k s = mkRun (result (k a s')) (final (k a s')) (t ++ trace (k a s')).
Proof. intros H. unfold pbind. by rewrite H. Qed.

Lemma pbind_Threw {St A B : Type} (m : P St A) (k : A -> P St B) (s s' : St)
    (e : JsError) (t : list IndexerEvent) :
  m s = mkRun (Threw e) s' t ->
  pbind m k s = mkRun (Threw e) s' t.
Proof. intros H. unfold pbind. by rewrite H. Qed.

Lemma pbind_OutOfFuel {St A B : Type} (m : P St A) (k : A -> P St B) (s s' : St)
    (t : list IndexerEvent) :
  m s = mkRun OutOfFuel s' t ->
  pbind m k s = mkRun OutOfFuel s' t.
Proof. intros H. unfold pbind. by rewrite H. Qed.

Section SplitProperties.
Context {St : Type}.
Variable new_splitter : Z -> Z -> option JsError.
Variable split : Z -> Z -> list Document -> Outcome (list Document).
Variable self : Indexer St.

Lemma lift_log (msg : string) (s : St) :
  lift (log self msg) s = mkRun (Returned tt) s (map Plain (log_events self msg)).
Proof. unfold lift. by rewrite log_run. Qed.

Lemma split_calls_app (l1 l2 : list IndexerEvent) :
  split_calls (l1 ++ l2) = split_calls l1 ++ split_calls l2.
Proof. apply omap_app. Qed.

Lemma split_calls_Plain (l : list Event) : split_calls (map Plain l) = [].
Proof. induction l as [|ev l IH]; [reflexivity | exact IH]. Qed.

Lemma split_calls_sample_debug (chunks : list Document) :
  split_calls (sample_debug self chunks) = [].
Proof.
  unfold sample_debug.
  destruct (enableLogging (config self) && (10 <? length chunks)%nat); reflexivity.
Qed.

Lemma debug_lines_app (l1 l2 : list IndexerEvent) :
  debug_lines (l1 ++ l2) = debug_lines l1 ++ debug_lines l2.
Proof. apply omap_app. Qed.

Lemma debug_lines_Plain (l : list Event) : debug_lines (map Plain l) = [].
Proof. induction l as [|ev l IH]; [reflexivity | exact IH]. Qed.

Lemma pipeline_add_calls_app (l1 l2 : list IndexerEvent) :
  pipeline_add_calls (l1 ++ l2) = pipeline_add_calls l1 ++ pipeline_add_calls l2.
Proof. apply omap_app. Qed.

Lemma pipeline_add_calls_Plain (l : list Event) :
  pipeline_add_calls (map Plain l) = add_calls l.
Proof.
  induction l as [|ev l IH]; [reflexivity|].
  destruct ev; try exact IH.
  change (batch :: pipeline_add_calls (map Plain l) = batch :: add_calls l).
  by rewrite IH.
Qed.

Lemma pipeline_add_calls_sample_debug (chunks : list Document) :
  pipeline_add_calls (sample_debug self chunks) = [].
Proof.
  unfold sample_debug.
  destruct (enableLogging (config self) && (10 <? length chunks)%nat); reflexivity.
Qed.

(** The run of [splitDocuments] on a non-empty list, case by case. *)
Lemma splitDocuments_run (documents : list Document) (s : St) :
  documents <> [] ->
  splitDocuments new_splitter split self documents s
  = match new_splitter (chunkSize (config self)) (chunkOverlap (config self)) with
    | Some e =>
        mkRun (Threw e) s
          [NewTextSplitter (chunkSize (config self)) (chunkOverlap (config self))]
    | None =>
        match split (chunkSize (config self)) (chunkOverlap (config self)) documents with
        | Returned chunks =>
            mkRun (Returned chunks) s
              (NewTextSplitter (chunkSize (config self)) (chunkOverlap (config self))
               :: map Plain (log_events self (splitting_message self documents))
               ++ SplitDocuments (chunkSize (config self)) (chunkOverlap (config self))
                    documents
               :: map Plain (log_events self ("Split into " +:+ pretty (length chunks)
                                              +:+ " chunks"))
               ++ sample_debug self chunks)
        | Threw e =>
            mkRun (Threw e) s
              (NewTextSplitter (chunkSize (config self)) (chunkOverlap (config self))
               :: map Plain (log_events self (splitting_message self documents))
               ++ [SplitDocuments (chunkSize (config self)) (chunkOverlap (config self))
                     documents])
        | OutOfFuel =>
            mkRun OutOfFuel s
              (NewTextSplitter (chunkSize (config self)) (chunkOverlap (config self))
               :: map Plain (log_events self (splitting_message self documents))
               ++ [SplitDocuments (chunkSize (config self)) (chunkOverlap (config self))
                     documents])
        end
    end.
Proof.
  intros Hne. unfold splitDocuments.
  destruct documents as [|d ds] eqn:Hdocs; [done|]. rewrite <- Hdocs. clear Hne.
  replace (length documents =? 0)%nat with false
    by (symmetry; apply Nat.eqb_neq; rewrite Hdocs; cbn; lia).
  fold (splitting_message self documents).
  set (cs := chunkSize (config self)). set (co := chunkOverlap (config self)).
  destruct (new_splitter cs co) as [e|] eqn:Hnew.
  { apply pbind_Threw. unfold new_textSplitter. rewrite Hnew. reflexivity. }
  rewrite (pbind_Returned _ _ s s tt [NewTextSplitter cs co])
    by (unfold new_textSplitter; rewrite Hnew; reflexivity).
  rewrite (pbind_Returned _ _ s s tt _ (lift_log _ s)).
  destruct (split cs co documents) as [chunks|e|] eqn:Hsplit.
  - rewrite (pbind_Returned _ _ s s chunks [SplitDocuments cs co documents])
      by reflexivity.
    rewrite (pbind_Returned _ _ s s tt _ (lift_log _ s)).
    rewrite (pbind_Returned _ _ s s tt (sample_debug self chunks)).
    + cbn [pret result final trace app]. by rewrite app_nil_r.
    + unfold sample_debug, logDebug.
      destruct (enableLogging (config self)), (10 <? length chunks)%nat; reflexivity.
  - rewrite (pbind_Threw _ _ s s e [SplitDocuments cs co documents])
      by reflexivity.
    reflexivity.
  - rewrite (pbind_OutOfFuel _ _ s s [SplitDocuments cs co documents])
      by reflexivity.
    reflexivity.
Qed.
End SplitProperties.

Lemma plain_events_app (l1 l2 : list IndexerEvent) :
  plain_events (l1 ++ l2) = plain_events l1 ++ plain_events l2.
Proof. apply omap_app. Qed.

Lemma plain_events_Plain (l : list Event) : plain_events (map Plain l) = l.
Proof.
  induction l as [|ev l IH]; [reflexivity|].
  change (ev :: plain_events (map Plain l) = ev :: l). by rewrite IH.
Qed.

Lemma plain_events_sample_debug {St : Type} (self : Indexer St) (chunks : list Document) :
  plain_events (sample_debug self chunks) = [].
Proof.
  unfold sample_debug.
  destruct (enableLogging (config self) && (10 <? length chunks)%nat); reflexivity.
Qed.

Lemma error_lines_app (l1 l2 : list Event) :
  error_lines (l1 ++ l2) = error_lines l1 ++ error_lines l2.
Proof. apply omap_app. Qed.

Lemma error_lines_log_events {St : Type} (self : Indexer St) (msg : string) :
  error_lines (log_events self msg) = [].
Proof. unfold log_events. destruct (enableLogging (config self)); reflexivity. Qed.

(** X3: on an empty document list [splitDocuments] returns the empty
    list after one log line; no text splitter is built or called. *)
Theorem splitDocuments_empty_skips_splitter {St : Type}
    (new_splitter : Z -> Z -> option JsError)
    (split : Z -> Z -> list Document -> Outcome (list Document))
    (vs : option (QdrantVectorStore St)) (cfg : option IndexerConfig) (s : St) :
  splitDocuments new_splitter split (new_Indexer vs cfg) [] s
  = mkRun (Returned []) s [Plain (LoggerInfo "[Indexer] No documents to split")].
Proof.
  unfold splitDocuments. cbn [length Nat.eqb]. unfold pbind.
  rewrite lift_log, log_events_enabled by apply new_Indexer_logs.
  reflexivity.
Qed.

(** X4: on a non-empty list, when the splitter can be built and answers,
    [splitDocuments] returns the splitter's chunks as they are; the
    splitter is built first, with the resolved chunk size and overlap, and
    is called once, on the documents given; nothing reaches the vector
    store. *)
Theorem splitDocuments_returns_splitter_chunks {St : Type}
    (new_splitter : Z -> Z -> option JsError)
    (split : Z -> Z -> list Document -> Outcome (list Document))
    (self : Indexer St) (documents chunks : list Document) (s : St) :
  documents <> [] ->
  new_splitter (chunkSize (config self)) (chunkOverlap (config self)) = None ->
  split (chunkSize (config self)) (chunkOverlap (config self)) documents
  = Returned chunks ->
  result (splitDocuments new_splitter split self documents s) = Returned chunks
  /\ final (splitDocuments new_splitter split self documents s) = s
  /\ split_calls (trace (splitDocuments new_splitter split self documents s))
     = [documents]
  /\ pipeline_add_calls (trace (splitDocuments new_splitter split self documents s)) = []
  /\ exists rest,
       trace (splitDocuments new_splitter split self documents s)
       = NewTextSplitter (chunkSize (config self)) (chunkOverlap (config self)) :: rest.
Proof.
  intros Hne Hnew Hsplit.
  rewrite (splitDocuments_run new_splitter split self documents s Hne), Hnew, Hsplit.
  cbn [result final trace].
  split; [reflexivity|]. split; [reflexivity|].
  split; [|split; [|eexists; reflexivity]].
  - change (split_calls (?x :: ?l)) with (split_calls l).
    rewrite split_calls_app, split_calls_Plain.
    change (split_calls (SplitDocuments ?a ?b ?d :: ?l)) with (d :: split_calls l).
    by rewrite split_calls_app, split_calls_Plain, split_calls_sample_debug.
  - change (pipeline_add_calls (?x :: ?l)) with (pipeline_add_calls l).
    rewrite pipeline_add_calls_app, pipeline_add_calls_Plain, add_calls_log_events.
    change (pipeline_add_calls (SplitDocuments ?a ?b ?d :: ?l))
      with (pipeline_add_calls l).
    by rewrite pipeline_add_calls_app, pipeline_add_calls_Plain, add_calls_log_events,
      pipeline_add_calls_sample_debug.
Qed.

Lemma splitDocuments_returns_splitter_chunks_witness :
  result (splitDocuments anySizes identitySplitter (new_Indexer (St := unit) None None)
            twelveChunks tt) = Returned twelveChunks
  /\ split_calls (trace (splitDocuments anySizes identitySplitter
                           (new_Indexer (St := unit) None None) twelveChunks tt))
     = [twelveChunks].
Proof.
  pose proof (splitDocuments_returns_splitter_chunks anySizes identitySplitter
                (new_Indexer (St := unit) None None) twelveChunks twelveChunks tt) as H.
  destruct H as (Hres & _ & Hcalls & _).
  - discriminate.
  - reflexivity.
  - reflexivity.
  - split; [exact Hres | exact Hcalls].
Defined.



(** The cut counts code units, not bytes: of 250 accented letters the
    first 200 are kept, and of 250 plain letters as well. *)
Example substring_0_200_counts_code_units :
  substring_0_200 (repeated 250 e_acute) = repeated 200 e_acute
  /\ substring_0_200 (repeated 250 "a") = repeated 200 "a"
  /\ substring_0_200 "short" = "short".
Proof. repeat split; vm_compute; reflexivity. Qed.



(** X6: an error of the text splitter, thrown by its constructor or by
    the split itself, leaves [splitDocuments] as it is: the same error,
    not wrapped, with no error line and no debug line logged; when the
    constructor throws, not even the "Splitting" line is written. *)
Theorem splitDocuments_propagates_splitter_error {St : Type}
    (new_splitter : Z -> Z -> option JsError)
    (split : Z -> Z -> list Document -> Outcome (list Document))
    (self : Indexer St) (documents : list Document) (e : JsError) (s : St) :
  documents <> [] ->
  (new_splitter (chunkSize (config self)) (chunkOverlap (config self)) = Some e
   \/ (new_splitter (chunkSize (config self)) (chunkOverlap (config self)) = None
       /\ split (chunkSize (config self)) (chunkOverlap (config self)) documents
          = Threw e)) ->
  result (splitDocuments new_splitter split self documents s) = Threw e
  /\ final (splitDocuments new_splitter split self documents s) = s
  /\ error_lines (plain_events (trace (splitDocuments new_splitter split self documents s)))
     = []
  /\ debug_lines (trace (splitDocuments new_splitter split self documents s)) = []
  /\ (new_splitter (chunkSize (config self)) (chunkOverlap (config self)) = Some e ->
      trace (splitDocuments new_splitter split self documents s)
      = [NewTextSplitter (chunkSize (config self)) (chunkOverlap (config self))]).
Proof.
  intros Hne Hcase.
  rewrite (splitDocuments_run new_splitter split self documents s Hne).
  destruct Hcase as [Hnew | [Hnew Hsplit]]; rewrite Hnew; [|rewrite Hsplit];
    cbn [result final trace].
  - repeat split.
  - split; [reflexivity|]. split; [reflexivity|].
    change (plain_events (?x :: ?l)) with (plain_events l).
    change (debug_lines (?x :: ?l)) with (debug_lines l).
    rewrite plain_events_app, plain_events_Plain, debug_lines_app, debug_lines_Plain.
    rewrite error_lines_app, error_lines_log_events.
    split; [reflexivity|]. split; [reflexivity|]. discriminate.
Qed.

Lemma splitDocuments_propagates_splitter_error_witness :
  result (splitDocuments (fun _ _ => Some (mkError "Cannot have chunkOverlap >= chunkSize"))
            identitySplitter (new_Indexer (St := unit) None None) twelveChunks tt)
  = Threw (mkError "Cannot have chunkOverlap >= chunkSize")
  /\ trace (splitDocuments (fun _ _ => Some (mkError "Cannot have chunkOverlap >= chunkSize"))
              identitySplitter (new_Indexer (St := unit) None None) twelveChunks tt)
     = [NewTextSplitter 500 100].
Proof.
  pose proof (splitDocuments_propagates_splitter_error
                (fun _ _ => Some (mkError "Cannot have chunkOverlap >= chunkSize"))
                identitySplitter (new_Indexer (St := unit) None None) twelveChunks
                (mkError "Cannot have chunkOverlap >= chunkSize") tt) as H.
  destruct H as (Hres & _ & _ & _ & Htrace).
  - discriminate.
  - left. reflexivity.
  - split; [exact Hres | apply Htrace; reflexivity].
Defined.

(** ** Loading, and the whole pipeline *)

Lemma loadDocuments_success_run {St : Type} (load : string -> Outcome (list Document))
    (self : Indexer St) (folderPath : string) (loaded : list Document) (s : St) :
  load folderPath = Returned loaded ->
  loadDocuments load self folderPath s
  = mkRes (Returned (map (tag_document folderPath) loaded)) s
      (DirectoryLoaderLoad folderPath
       :: log_events self ("Loaded " +:+ pretty (length (map (tag_document folderPath) loaded))
                           +:+ " documents from folder: " +:+ folderPath)).
Proof.
  intros Hload. unfold loadDocuments, try_catch, bind, await, emit, log, log_events, ret.
  cbn [outcome store events]. rewrite Hload. cbn [outcome store events].
  destruct (enableLogging (config self)); reflexivity.
Qed.

Lemma loadDocuments_failure_run {St : Type} (load : string -> Outcome (list Document))
    (self : Indexer St) (folderPath : string) (e : JsError) (s : St) :
  load folderPath = Threw e ->
  loadDocuments load self folderPath s
  = mkRes (Threw (mkError ("Failed to load documents for folder " +:+ folderPath
                           +:+ ": " +:+ error_toString e))) s
      (DirectoryLoaderLoad folderPath
       :: if enableLogging (config self)
          then [LoggerError ("[Indexer] Error loading documents from " +:+ folderPath
                             +:+ ": " +:+ error_toString e)]
          else []).
Proof.
  intros Hload. unfold loadDocuments, try_catch, bind, await, emit, logError, throw, ret.
  cbn [outcome store events]. rewrite Hload. cbn [outcome store events].
  destruct (enableLogging (config self)); reflexivity.
Qed.

(** [indexDocuments] with a store whose calls succeed, the empty list
    included. *)
Lemma indexDocuments_success {St : Type} (self : Indexer St) (vs : QdrantVectorStore St)
    (chunks : list Document) (fuel : nat) (s : St) :
  vectorStore self = Some vs ->
  0 < batchSize (config self) ->
  (length chunks < fuel)%nat ->
  first_failure vs s (batches (batchSize (config self)) chunks) = None ->
  outcome (indexDocuments fuel self chunks s) = Returned tt
  /\ add_calls (events (indexDocuments fuel self chunks s))
     = batches (batchSize (config self)) chunks
  /\ store (indexDocuments fuel self chunks s)
     = store_after vs s (batches (batchSize (config self)) chunks).
Proof.
  intros Hvs HB Hfuel Hok.
  destruct (decide (chunks = [])) as [->|Hne].
  - rewrite batches_nil by lia. unfold indexDocuments. cbn [length Nat.eqb].
    rewrite log_run. cbn [outcome events store]. by rewrite add_calls_log_events.
  - rewrite (indexDocuments_result self chunks fuel s Hne HB Hfuel).
    destruct (process_batches_all_succeed self chunks vs Hvs _ 0%nat s Hok)
      as (Ho & Hc & Hs).
    rewrite Ho. cbn [outcome events store].
    rewrite !add_calls_app, !add_calls_log_events, Hc, app_nil_r.
    by repeat split.
Qed.

(** X2: when the directory loader throws, [loadDocuments] logs one error
    line and throws a new [Error] whose message names the folder and ends
    with the loader's error as JavaScript renders it (its name, a colon
    and its message, or the one of the two that is not empty); the
    loader's own error object is not what is thrown. *)
Theorem loadDocuments_wraps_loader_error {St : Type}
    (load : string -> Outcome (list Document))
    (vs : option (QdrantVectorStore St)) (cfg : option IndexerConfig)
    (folderPath : string) (e : JsError) (s : St) :
  load folderPath = Threw e ->
  loadDocuments load (new_Indexer vs cfg) folderPath s
  = mkRes
      (Threw {| name := "Error";
                message :=
                  "Failed to load documents for folder " +:+ folderPath +:+ ": "
                  +:+ (if String.eqb (name e) "" then message e
                       else if String.eqb (message e) "" then name e
                       else name e +:+ ": " +:+ message e) |}) s
      [DirectoryLoaderLoad folderPath;
       LoggerError ("[Indexer] Error loading documents from " +:+ folderPath +:+ ": "
                    +:+ (if String.eqb (name e) "" then message e
                         else if String.eqb (message e) "" then name e
                         else name e +:+ ": " +:+ message e))].
Proof.
  intros Hload.
  rewrite (loadDocuments_failure_run load _ folderPath e s Hload), new_Indexer_logs.
  reflexivity.
Qed.

Lemma loadDocuments_wraps_loader_error_witness :
  loadDocuments (fun _ => Threw (mkJsError "TypeError" "bad input"))
    (new_Indexer (St := unit) None None) "./data" tt
  = mkRes
      (Threw (mkError "Failed to load documents for folder ./data: TypeError: bad input"))
      tt
      [DirectoryLoaderLoad "./data";
       LoggerError "[Indexer] Error loading documents from ./data: TypeError: bad input"]
  /\ loadDocuments (failingLoader "") (new_Indexer (St := unit) None None) "./data" tt
     = mkRes (Threw (mkError "Failed to load documents for folder ./data: Error")) tt
         [DirectoryLoaderLoad "./data";
          LoggerError "[Indexer] Error loading documents from ./data: Error"]
  /\ loadDocuments (failingLoader "ENOENT") (new_Indexer (St := unit) None None) "./data" tt
     = mkRes (Threw (mkError "Failed to load documents for folder ./data: Error: ENOENT"))
         tt
         [DirectoryLoaderLoad "./data";
          LoggerError "[Indexer] Error loading documents from ./data: Error: ENOENT"].
Proof.
  split; [|split].
  - apply (loadDocuments_wraps_loader_error
             (fun _ => Threw (mkJsError "TypeError" "bad input")) (St := unit)
             None None "./data" (mkJsError "TypeError" "bad input") tt).
    reflexivity.
  - apply (loadDocuments_wraps_loader_error (failingLoader "") (St := unit)
             None None "./data" (mkError "") tt).
    reflexivity.
  - apply (loadDocuments_wraps_loader_error (failingLoader "ENOENT") (St := unit)
             None None "./data" (mkError "ENOENT") tt).
    reflexivity.
Defined.

Section PipelineProperties.
Context {St : Type}.
Variable load : string -> Outcome (list Document).
Variable new_splitter : Z -> Z -> option JsError.
Variable split : Z -> Z -> list Document -> Outcome (list Document).

Lemma indexFolder_after_load (fuel : nat) (self : Indexer St) (folderPath : string)
    (loaded : list Document) (s : St) :
  load folderPath = Returned loaded ->
  indexFolder load new_splitter split fuel self folderPath s
  = mkRun
      (result ((chunks <~ splitDocuments new_splitter split self
                            (map (tag_document folderPath) loaded) ;;
                lift (indexDocuments fuel self chunks)) s))
      (final ((chunks <~ splitDocuments new_splitter split self
                           (map (tag_document folderPath) loaded) ;;
               lift (indexDocuments fuel self chunks)) s))
      (map Plain (events (loadDocuments load self folderPath s))
       ++ trace ((chunks <~ splitDocuments new_splitter split self
                              (map (tag_document folderPath) loaded) ;;
                  lift (indexDocuments fuel self chunks)) s)).
Proof.
  intros Hload. unfold indexFolder.
  rewrite (pbind_Returned _ _ s s (map (tag_document folderPath) loaded)
             (map Plain (events (loadDocuments load self folderPath s)))); [reflexivity|].
  unfold lift. by rewrite (loadDocuments_success_run load self folderPath loaded s Hload).
Qed.
End PipelineProperties.

(** X7: when loading fails, [indexFolder] stops there: it throws the
    wrapped loading error (a new [Error] whose message names the folder and
    ends with the loader's error as JavaScript renders it), builds no text
    splitter, splits nothing, and hands nothing to the vector store, whose
    state is untouched. *)
Theorem indexFolder_stops_on_load_failure {St : Type}
    (load : string -> Outcome (list Document))
    (new_splitter : Z -> Z -> option JsError)
    (split : Z -> Z -> list Document -> Outcome (list Document))
    (fuel : nat) (self : Indexer St) (folderPath : string) (e : JsError) (s : St) :
  load folderPath = Threw e ->
  result (indexFolder load new_splitter split fuel self folderPath s)
  = Threw {| name := "Error";
             message :=
               "Failed to load documents for folder " +:+ folderPath +:+ ": "
               +:+ (if String.eqb (name e) "" then message e
                    else if String.eqb (message e) "" then name e
                    else name e +:+ ": " +:+ message e) |}
  /\ final (indexFolder load new_splitter split fuel self folderPath s) = s
  /\ trace (indexFolder load new_splitter split fuel self folderPath s)
     = map Plain (events (loadDocuments load self folderPath s))
  /\ split_calls (trace (indexFolder load new_splitter split fuel self folderPath s)) = []
  /\ pipeline_add_calls (trace (indexFolder load new_splitter split fuel self folderPath s))
     = [].
Proof.
  intros Hload. unfold indexFolder.
  rewrite (pbind_Threw _ _ s s
             (mkError ("Failed to load documents for folder " +:+ folderPath
                       +:+ ": " +:+ error_toString e))
             (map Plain (events (loadDocuments load self folderPath s)))).
  2:{ unfold lift. by rewrite (loadDocuments_failure_run load self folderPath e s Hload). }
  cbn [result final trace].
  rewrite split_calls_Plain, pipeline_add_calls_Plain.
  rewrite (loadDocuments_failure_run load self folderPath e s Hload). cbn [events].
  repeat split. destruct (enableLogging (config self)); reflexivity.
Qed.

Lemma indexFolder_stops_on_load_failure_witness :
  result (indexFolder (failingLoader "ENOENT") anySizes identitySplitter 0
            (new_Indexer (Some appendStore) None) "./data" [])
  = Threw (mkError "Failed to load documents for folder ./data: Error: ENOENT")
  /\ pipeline_add_calls
       (trace (indexFolder (failingLoader "ENOENT") anySizes identitySplitter 0
                 (new_Indexer (Some appendStore) None) "./data" [])) = []
  /\ result (indexFolder (fun _ => Threw (mkJsError "TypeError" "")) anySizes
               identitySplitter 0 (new_Indexer (Some appendStore) None) "./data" [])
     = Threw (mkError "Failed to load documents for folder ./data: TypeError").
Proof.
  pose proof (indexFolder_stops_on_load_failure (failingLoader "ENOENT") anySizes
                identitySplitter 0 (new_Indexer (Some appendStore) None) "./data"
                (mkError "ENOENT") []) as H.
  destruct H as (Hres & _ & _ & _ & Hcalls).
  - reflexivity.
  - split; [exact Hres|]. split; [exact Hcalls|].
    pose proof (indexFolder_stops_on_load_failure
                  (fun _ => Threw (mkJsError "TypeError" "")) anySizes
                  identitySplitter 0 (new_Indexer (Some appendStore) None) "./data"
                  (mkJsError "TypeError" "") []) as H.
    destruct H as (Hres' & _); [reflexivity | exact Hres'].
Defined.

(** X8: on a folder where the loader finds no document, [indexFolder]
    returns normally, whatever the fuel: it writes three log lines
    (0 loaded, nothing to split, nothing to save), builds no text
    splitter and makes no vector-store call. *)
Theorem indexFolder_empty_folder_is_noop {St : Type}
    (load : string -> Outcome (list Document))
    (new_splitter : Z -> Z -> option JsError)
    (split : Z -> Z -> list Document -> Outcome (list Document))
    (fuel : nat) (vs : option (QdrantVectorStore St)) (cfg : option IndexerConfig)
    (folderPath : string) (s : St) :
  load folderPath = Returned [] ->
  indexFolder load new_splitter split fuel (new_Indexer vs cfg) folderPath s
  = mkRun (Returned tt) s
      [Plain (DirectoryLoaderLoad folderPath);
       Plain (LoggerInfo ("[Indexer] Loaded 0 documents from folder: " +:+ folderPath));
       Plain (LoggerInfo "[Indexer] No documents to split");
       Plain (LoggerInfo "[Indexer] No chunks to save")].
Proof.
  intros Hload.
  rewrite (indexFolder_after_load load new_splitter split fuel _ folderPath [] s Hload).
  rewrite (loadDocuments_success_run load _ folderPath [] s Hload).
  cbn [map events].
  rewrite (pbind_Returned _ _ s s []
             [Plain (LoggerInfo "[Indexer] No documents to split")]).
  2:{ unfold splitDocuments. cbn [length Nat.eqb]. unfold pbind.
      rewrite lift_log, log_events_enabled by apply new_Indexer_logs. reflexivity. }
  unfold lift, indexDocuments. cbn [length Nat.eqb].
  rewrite log_run, !log_events_enabled by apply new_Indexer_logs.
  reflexivity.
Qed.

Lemma indexFolder_empty_folder_is_noop_witness :
  indexFolder (fixedLoader []) anySizes identitySplitter 0
    (new_Indexer (St := unit) None None) "./data" tt
  = mkRun (Returned tt) tt
      [Plain (DirectoryLoaderLoad "./data");
       Plain (LoggerInfo ("[Indexer] Loaded 0 documents from folder: " +:+ "./data"));
       Plain (LoggerInfo "[Indexer] No documents to split");
       Plain (LoggerInfo "[Indexer] No chunks to save")].
Proof.
  apply (indexFolder_empty_folder_is_noop (fixedLoader []) anySizes identitySplitter 0
           (St := unit) None None "./data" tt).
  reflexivity.
Defined.

(** X9: the whole pipeline on a folder with documents, when the splitter
    answers and every store call succeeds: the text splitter is given the
    loaded documents with their provenance metadata already merged in; the
    vector store is given exactly the splitter's chunks, cut into
    consecutive batches of the resolved batch size; and [indexFolder]
    returns normally, leaving the store as those calls left it. *)
Theorem indexFolder_sends_split_chunks {St : Type}
    (load : string -> Outcome (list Document))
    (new_splitter : Z -> Z -> option JsError)
    (split : Z -> Z -> list Document -> Outcome (list Document))
    (fuel : nat) (self : Indexer St) (vs : QdrantVectorStore St)
    (folderPath : string) (loaded chunks : list Document) (s : St) :
  load folderPath = Returned loaded ->
  loaded <> [] ->
  new_splitter (chunkSize (config self)) (chunkOverlap (config self)) = None ->
  split (chunkSize (config self)) (chunkOverlap (config self))
        (map (tag_document folderPath) loaded) = Returned chunks ->
  vectorStore self = Some vs ->
  0 < batchSize (config self) ->
  (length chunks < fuel)%nat ->
  first_failure vs s (batches (batchSize (config self)) chunks) = None ->
  result (indexFolder load new_splitter split fuel self folderPath s) = Returned tt
  /\ split_calls (trace (indexFolder load new_splitter split fuel self folderPath s))
     = [map (tag_document folderPath) loaded]
  /\ pipeline_add_calls (trace (indexFolder load new_splitter split fuel self folderPath s))
     = batches (batchSize (config self)) chunks
  /\ concat (pipeline_add_calls
               (trace (indexFolder load new_splitter split fuel self folderPath s)))
     = chunks
  /\ final (indexFolder load new_splitter split fuel self folderPath s)
     = store_after vs s (batches (batchSize (config self)) chunks).
Proof.
  intros Hload Hne Hnew Hsplit Hvs HB Hfuel Hok.
  rewrite (indexFolder_after_load load new_splitter split fuel self folderPath loaded s Hload).
  assert (Hne' : map (tag_document folderPath) loaded <> [])
    by (destruct loaded; [done | discriminate]).
  pose proof (splitDocuments_run new_splitter split self _ s Hne') as Hrun.
  rewrite Hnew, Hsplit in Hrun.
  rewrite (pbind_Returned _ _ s s chunks _ Hrun).
  destruct (indexDocuments_success self vs chunks fuel s Hvs HB Hfuel Hok)
    as (Ho & Hc & Hs).
  cbn [result final trace]. unfold lift. cbn [result final trace].
  rewrite Ho, Hs.
  rewrite !split_calls_app, !pipeline_add_calls_app, !split_calls_Plain,
    !pipeline_add_calls_Plain, Hc.
  rewrite (loadDocuments_success_run load self folderPath loaded s Hload). cbn [events].
  change (add_calls (DirectoryLoaderLoad ?p :: ?l)) with (add_calls l).
  rewrite add_calls_log_events.
  change (split_calls (NewTextSplitter ?a ?b :: ?l)) with (split_calls l).
  change (pipeline_add_calls (NewTextSplitter ?a ?b :: ?l)) with (pipeline_add_calls l).
  rewrite !split_calls_app, !pipeline_add_calls_app, !split_calls_Plain,
    !pipeline_add_calls_Plain, !add_calls_log_events.
  change (split_calls (SplitDocuments ?a ?b ?d :: ?l)) with (d :: split_calls l).
  change (pipeline_add_calls (SplitDocuments ?a ?b ?d :: ?l)) with (pipeline_add_calls l).
  rewrite !split_calls_app, !pipeline_add_calls_app, !split_calls_Plain,
    !pipeline_add_calls_Plain, !add_calls_log_events,
    split_calls_sample_debug, pipeline_add_calls_sample_debug.
  cbn [app]. rewrite (concat_batches self chunks HB).
  by repeat split.
Qed.

Lemma indexFolder_sends_split_chunks_witness :
  result (indexFolder (fixedLoader fiveChunks) anySizes identitySplitter 6
            (new_Indexer (Some appendStore) batchesOfTwo) "./data" [])
  = Returned tt
  /\ final (indexFolder (fixedLoader fiveChunks) anySizes identitySplitter 6
              (new_Indexer (Some appendStore) batchesOfTwo) "./data" [])
     = map (tag_document "./data") fiveChunks.
Proof.
  pose proof (indexFolder_sends_split_chunks (fixedLoader fiveChunks) anySizes
                identitySplitter 6 (new_Indexer (Some appendStore) batchesOfTwo)
                appendStore "./data" fiveChunks
                (map (tag_document "./data") fiveChunks) []) as H.
  destruct H as (Hres & _ & _ & _ & Hfinal).
  - reflexivity.
  - discriminate.
  - reflexivity.
  - reflexivity.
  - reflexivity.
  - reflexivity.
  - unfold fiveChunks. simpl. lia.
  - reflexivity.
  - split; [exact Hres|]. rewrite Hfinal. reflexivity.
Defined.

(** X10: when the text splitter throws (at construction or while
    splitting), [indexFolder] throws that error and nothing is handed to
    the vector store, whose state is untouched. *)
Theorem indexFolder_stops_on_split_failure {St : Type}
    (load : string -> Outcome (list Document))
    (new_splitter : Z -> Z -> option JsError)
    (split : Z -> Z -> list Document -> Outcome (list Document))
    (fuel : nat) (self : Indexer St)
    (folderPath : string) (loaded : list Document) (e : JsError) (s : St) :
  load folderPath = Returned loaded ->
  loaded <> [] ->
  (new_splitter (chunkSize (config self)) (chunkOverlap (config self)) = Some e
   \/ (new_splitter (chunkSize (config self)) (chunkOverlap (config self)) = None
       /\ split (chunkSize (config self)) (chunkOverlap (config self))
            (map (tag_document folderPath) loaded) = Threw e)) ->
  result (indexFolder load new_splitter split fuel self folderPath s) = Threw e
  /\ final (indexFolder load new_splitter split fuel self folderPath s) = s
  /\ pipeline_add_calls (trace (indexFolder load new_splitter split fuel self folderPath s))
     = [].
Proof.
  intros Hload Hne Hcase.
  rewrite (indexFolder_after_load load new_splitter split fuel self folderPath loaded s Hload).
  assert (Hne' : map (tag_document folderPath) loaded <> [])
    by (destruct loaded; [done | discriminate]).
  pose proof (splitDocuments_run new_splitter split self _ s Hne') as Hrun.
  rewrite (loadDocuments_success_run load self folderPath loaded s Hload). cbn [events].
  destruct Hcase as [Hnew | [Hnew Hsplit]]; rewrite Hnew in Hrun;
    [|rewrite Hsplit in Hrun];
    rewrite (pbind_Threw _ _ s s e _ Hrun); cbn [result final trace];
    rewrite !pipeline_add_calls_app, !pipeline_add_calls_Plain;
    change (add_calls (DirectoryLoaderLoad ?p :: ?l)) with (add_calls l);
    rewrite add_calls_log_events.
  - by repeat split.
  - change (pipeline_add_calls (NewTextSplitter ?a ?b :: ?l)) with (pipeline_add_calls l).
    rewrite !pipeline_add_calls_app, !pipeline_add_calls_Plain, add_calls_log_events.
    by repeat split.
Qed.

Lemma indexFolder_stops_on_split_failure_witness :
  result (indexFolder (fixedLoader fiveChunks) anySizes
            (fun _ _ _ => Threw (mkError "split failed")) 6
            (new_Indexer (Some appendStore) batchesOfTwo) "./data" [])
  = Threw (mkError "split failed")
  /\ final (indexFolder (fixedLoader fiveChunks) anySizes
              (fun _ _ _ => Threw (mkError "split failed")) 6
              (new_Indexer (Some appendStore) batchesOfTwo) "./data" []) = [].
Proof.
  pose proof (indexFolder_stops_on_split_failure (fixedLoader fiveChunks) anySizes
                (fun _ _ _ => Threw (mkError "split failed")) 6
                (new_Indexer (Some appendStore) batchesOfTwo) "./data" fiveChunks
                (mkError "split failed") []) as H.
  destruct H as (Hres & Hfinal & _).
  - reflexivity.
  - discriminate.
  - right. split; reflexivity.
  - split; [exact Hres | exact Hfinal].
Defined.

(** ** More on the batching loop *)

Section BatchingTrace.
Context {St : Type}.
Variable self : Indexer St.
Variable chunks : list Document.

Lemma process_batches_progress (vs : QdrantVectorStore St) :
  vectorStore self = Some vs ->
  enableLogging (config self) = true ->
  forall (bs : list (list Document)) (j : nat) (s : St),
    first_failure vs s bs = None ->
    events (process_batches self chunks j bs s) = progress_events self chunks j bs.
Proof.
  intros Hvs Hlog. induction bs as [|b bs IH]; intros j s Hok; [reflexivity|].
  rewrite process_batches_cons, Hvs. cbn [first_failure] in Hok.
  destruct (addDocuments_impl vs s b) as [s' [e|]]; [discriminate|].
  destruct (first_failure vs s' bs) as [[k e]|] eqn:Hrest; [discriminate|].
  cbn [events progress_events]. rewrite (IH (S j) s' Hrest).
  by rewrite log_events_enabled.
Qed.

Lemma length_progress_events (j : nat) (bs : list (list Document)) :
  length (progress_events self chunks j bs) = (2 * length bs)%nat.
Proof.
  revert j. induction bs as [|b bs IH]; intros j; [reflexivity|].
  cbn [progress_events length]. rewrite IH. lia.
Qed.

Lemma progress_events_lookup (bs : list (list Document)) (j i : nat) (b : list Document) :
  bs !! i = Some b ->
  progress_events self chunks j bs !! (2 * i)%nat
  = Some (LoggerInfo ("[Indexer] " +:+ batch_message self chunks (j + i) b))
  /\ progress_events self chunks j bs !! (2 * i + 1)%nat = Some (AddDocuments b).
Proof.
  revert j i. induction bs as [|b0 bs IH]; intros j i Hi; [done|].
  destruct i as [|i].
  - cbn in Hi. injection Hi as ->. rewrite Nat.add_0_r. by split.
  - cbn [lookup list_lookup] in Hi. destruct (IH (S j) i Hi) as [H1 H2].
    replace (2 * S i)%nat with (S (S (2 * i))) by lia.
    replace (S (S (2 * i)) + 1)%nat with (S (S (2 * i + 1))) by lia.
    cbn [progress_events]. rewrite !lookup_cons.
    replace (j + S i)%nat with (S j + i)%nat by lia. by split.
Qed.

(** No line of the loop is the success line. *)
Lemma process_batches_never_reports_success (bs : list (list Document)) (j : nat) (s : St) :
  ~ In "[Indexer] Successfully saved all chunks to vector store"
       (info_lines (events (process_batches self chunks j bs s))).
Proof.
  revert j s. induction bs as [|b bs IH]; intros j s; [by intros []|].
  rewrite process_batches_cons.
  assert (Hmsg : forall l,
             In "[Indexer] Successfully saved all chunks to vector store"
                (info_lines (log_events self (batch_message self chunks j b) ++ l)) ->
             In "[Indexer] Successfully saved all chunks to vector store" (info_lines l)).
  { intros l. unfold log_events, batch_message.
    destruct (enableLogging (config self)); [|done].
    intros [H|H]; [|exact H]. exfalso. clear -H.
    cbv beta iota delta [String.append] in H. discriminate H. }
  assert (Herr : forall e,
             ~ In "[Indexer] Successfully saved all chunks to vector store"
                  (info_lines (log_events self ("Error processing batch: "
                                                +:+ error_toString e)))).
  { intros e. unfold log_events. destruct (enableLogging (config self)); [|by intros []].
    intros [H|[]]. clear -H.
    cbv beta iota delta [String.append] in H. discriminate H. }
  destruct (vectorStore self) as [vs|].
  - destruct (addDocuments_impl vs s b) as [s' [e|]]; cbn [events]; intros H;
      apply Hmsg in H.
    + exact (Herr e H).
    + exact (IH (S j) s' H).
  - cbn [events]. intros H. apply Hmsg in H. exact (IH (S j) s H).
Qed.

Lemma batches_single :
  chunks <> [] ->
  Z.of_nat (length chunks) <= batchSize (config self) ->
  batches (batchSize (config self)) chunks = [chunks].
Proof.
  intros Hne Hle.
  assert (Hlen : (0 < length chunks)%nat) by (destruct chunks; [done | cbn; lia]).
  assert (HB : 0 < batchSize (config self)) by lia.
  assert (Hcount : batch_count (batchSize (config self)) chunks = 1%nat).
  { unfold batch_count.
    pose proof (Math_ceil_div_bounds (Z.of_nat (length chunks)) _ HB ltac:(lia))
      as (H0 & H1 & H2).
    nia. }
  unfold batches. rewrite Hcount. cbn [seq map]. unfold batch_at.
  cbn [Nat.mul drop]. f_equal. apply take_ge. lia.
Qed.
End BatchingTrace.

(** X11: the trace of a successful run on a non-empty list: the "Saving"
    line first, then for each batch its progress line, numbered from 1 over
    [ceil(N / B)] and giving the batch's size, immediately followed by its
    [addDocuments] call, and the success line last: [2 * ceil(N / B) + 2]
    events in all. *)
Theorem indexDocuments_progress_precedes_each_call {St : Type}
    (vs : QdrantVectorStore St) (cfg : option IndexerConfig)
    (chunks : list Document) (fuel : nat) (s : St) :
  chunks <> [] ->
  0 < batchSize (config (new_Indexer (Some vs) cfg)) ->
  (length chunks < fuel)%nat ->
  first_failure vs s (batches (batchSize (config (new_Indexer (Some vs) cfg))) chunks)
  = None ->
  length (events (indexDocuments fuel (new_Indexer (Some vs) cfg) chunks s))
  = (2 * batch_count (batchSize (config (new_Indexer (Some vs) cfg))) chunks + 2)%nat
  /\ events (indexDocuments fuel (new_Indexer (Some vs) cfg) chunks s) !! 0%nat
     = Some (LoggerInfo ("[Indexer] Saving " +:+ pretty (length chunks)
                         +:+ " chunks to vector store..."))
  /\ (forall j b,
        batches (batchSize (config (new_Indexer (Some vs) cfg))) chunks !! j = Some b ->
        events (indexDocuments fuel (new_Indexer (Some vs) cfg) chunks s) !! (2 * j + 1)%nat
        = Some (LoggerInfo
                  ("[Indexer] Processing batch " +:+ pretty (Z.of_nat j + 1) +:+ "/"
                   +:+ pretty (Math_ceil_div (Z.of_nat (length chunks))
                                 (batchSize (config (new_Indexer (Some vs) cfg))))
                   +:+ " (" +:+ pretty (length b) +:+ " chunks)"))
        /\ events (indexDocuments fuel (new_Indexer (Some vs) cfg) chunks s)
             !! (2 * j + 2)%nat
           = Some (AddDocuments b))
  /\ last (events (indexDocuments fuel (new_Indexer (Some vs) cfg) chunks s))
     = Some (LoggerInfo "[Indexer] Successfully saved all chunks to vector store").
Proof.
  intros Hne HB Hfuel Hok.
  set (self := new_Indexer (Some vs) cfg) in *.
  assert (Hlog : enableLogging (config self) = true) by apply new_Indexer_logs.
  rewrite (indexDocuments_result self chunks fuel s Hne HB Hfuel).
  destruct (process_batches_all_succeed self chunks vs eq_refl _ 0%nat s Hok) as (Ho & _ & _).
  rewrite Ho. cbn [events].
  rewrite (process_batches_progress self chunks vs eq_refl Hlog _ 0%nat s Hok).
  rewrite !(log_events_enabled self _ Hlog). cbn [app].
  split; [|split; [reflexivity|split]].
  - cbn [length]. rewrite length_app, length_progress_events, length_batches.
    cbn [length]. lia.
  - intros j b Hb.
    destruct (progress_events_lookup self chunks _ 0 j b Hb) as [H1 H2].
    pose proof (lookup_lt_Some _ _ _ Hb) as Hj.
    replace (2 * j + 1)%nat with (S (2 * j)) by lia.
    replace (2 * j + 2)%nat with (S (2 * j + 1)) by lia.
    rewrite !lookup_cons.
    rewrite !lookup_app_l by (rewrite length_progress_events; lia).
    rewrite H1, H2. split; [|reflexivity].
    unfold batch_message. reflexivity.
  - rewrite app_comm_cons. apply last_snoc.
Qed.

Lemma indexDocuments_progress_precedes_each_call_witness :
  events (indexDocuments 6 (new_Indexer (Some appendStore) batchesOfTwo) fiveChunks [])
  = [LoggerInfo "[Indexer] Saving 5 chunks to vector store...";
     LoggerInfo "[Indexer] Processing batch 1/3 (2 chunks)";
     AddDocuments [plainDoc "a"; plainDoc "b"];
     LoggerInfo "[Indexer] Processing batch 2/3 (2 chunks)";
     AddDocuments [plainDoc "c"; plainDoc "d"];
     LoggerInfo "[Indexer] Processing batch 3/3 (1 chunks)";
     AddDocuments [plainDoc "e"];
     LoggerInfo "[Indexer] Successfully saved all chunks to vector store"]
  /\ length (events (indexDocuments 6 (new_Indexer (Some appendStore) batchesOfTwo)
                       fiveChunks []))
     = (2 * batch_count 2 fiveChunks + 2)%nat.
Proof.
  pose proof (indexDocuments_progress_precedes_each_call appendStore batchesOfTwo
                fiveChunks 6 []) as H.
  destruct H as (Hlen & _).
  - discriminate.
  - reflexivity.
  - unfold fiveChunks. simpl. lia.
  - reflexivity.
  - split; [reflexivity | exact Hlen].
Defined.

(** X12: when a batch fails, the success line "Successfully saved all
    chunks to vector store" is never written. *)
Theorem indexDocuments_failure_never_reports_success {St : Type}
    (self : Indexer St) (vs : QdrantVectorStore St)
    (chunks : list Document) (fuel : nat) (s : St) (k : nat) (e : JsError) :
  vectorStore self = Some vs ->
  0 < batchSize (config self) ->
  (length chunks < fuel)%nat ->
  first_failure vs s (batches (batchSize (config self)) chunks) = Some (k, e) ->
  ~ In "[Indexer] Successfully saved all chunks to vector store"
       (info_lines (events (indexDocuments fuel self chunks s))).
Proof.
  intros Hvs HB Hfuel Hfail.
  assert (Hne : chunks <> []).
  { intros ->. rewrite batches_nil in Hfail by lia. discriminate. }
  rewrite (indexDocuments_result self chunks fuel s Hne HB Hfuel).
  destruct (process_batches_first_failure self chunks vs Hvs _ 0%nat s k e Hfail)
    as (Ho & _).
  rewrite Ho. cbn [events]. unfold info_lines. rewrite omap_app.
  intros H. apply in_app_or in H as [H|H].
  - unfold log_events in H. destruct (enableLogging (config self)); [|done].
    destruct H as [H|[]]. clear -H.
    cbv beta iota delta [String.append] in H. discriminate H.
  - exact (process_batches_never_reports_success self chunks _ 0%nat s H).
Qed.

Lemma indexDocuments_failure_never_reports_success_witness :
  ~ In "[Indexer] Successfully saved all chunks to vector store"
       (info_lines (events (indexDocuments 6
                              (new_Indexer (Some (rejectingStore "c")) batchesOfTwo)
                              fiveChunks []))).
Proof.
  apply (indexDocuments_failure_never_reports_success
           (new_Indexer (Some (rejectingStore "c")) batchesOfTwo) (rejectingStore "c")
           fiveChunks 6 [] 1 (mkError "write failed")).
  - reflexivity.
  - reflexivity.
  - unfold fiveChunks. simpl. lia.
  - reflexivity.
Defined.

(** X13: a negative batch size is not rejected and the loop never ends:
    on a non-empty list, with no store or with a store whose calls return,
    [indexDocuments] runs out of any fuel. *)
Theorem indexDocuments_negative_batchSize_never_returns {St : Type}
    (self : Indexer St) (chunks : list Document) :
  batchSize (config self) < 0 ->
  chunks <> [] ->
  (forall vs, vectorStore self = Some vs ->
              forall s b, snd (addDocuments_impl vs s b) = None) ->
  forall (fuel : nat) (s : St),
    outcome (indexDocuments fuel self chunks s) = OutOfFuel.
Proof.
  intros HB Hne Hstore fuel s.
  assert (Hadd : forall b s', outcome (vectorStore_addDocuments self b s') = Returned tt).
  { intros b s'. unfold vectorStore_addDocuments.
    destruct (vectorStore self) as [vs|] eqn:Hvs; [|reflexivity].
    unfold addDocuments. specialize (Hstore vs eq_refl s' b).
    destruct (addDocuments_impl vs s' b) as [s'' [e|]]; [discriminate|reflexivity]. }
  unfold indexDocuments.
  destruct chunks as [|c cs] eqn:Hchunks; [done|]. rewrite <- Hchunks in *.
  replace (length chunks =? 0)%nat with false
    by (symmetry; apply Nat.eqb_neq; rewrite Hchunks; cbn; lia).
  unfold bind. rewrite log_run. cbn [outcome store events].
  by rewrite (indexDocuments_for_negative_batchSize self chunks HB Hne Hadd fuel 0 s).
Qed.

Lemma indexDocuments_negative_batchSize_never_returns_witness :
  outcome (indexDocuments 50
             (new_Indexer (Some appendStore)
                (Some {| cfg_chunkSize := None; cfg_chunkOverlap := None;
                         cfg_enableLogging := None; cfg_batchSize := Some (-2) |}))
             fiveChunks []) = OutOfFuel.
Proof.
  apply (indexDocuments_negative_batchSize_never_returns
           (new_Indexer (Some appendStore)
              (Some {| cfg_chunkSize := None; cfg_chunkOverlap := None;
                       cfg_enableLogging := None; cfg_batchSize := Some (-2) |}))
           fiveChunks).
  - reflexivity.
  - discriminate.
  - intros vs Hvs s b. injection Hvs as <-. reflexivity.
Defined.

(** X14: when the batch size is at least the number of chunks, the whole
    non-empty list goes to the store in one [addDocuments] call. *)
Theorem indexDocuments_single_batch {St : Type} (self : Indexer St)
    (vs : QdrantVectorStore St) (chunks : list Document) (fuel : nat) (s : St) :
  vectorStore self = Some vs ->
  chunks <> [] ->
  Z.of_nat (length chunks) <= batchSize (config self) ->
  (length chunks < fuel)%nat ->
  snd (addDocuments_impl vs s chunks) = None ->
  outcome (indexDocuments fuel self chunks s) = Returned tt
  /\ add_calls (events (indexDocuments fuel self chunks s)) = [chunks]
  /\ store (indexDocuments fuel self chunks s) = fst (addDocuments_impl vs s chunks).
Proof.
  intros Hvs Hne Hle Hfuel Hadd.
  assert (Hlen : (0 < length chunks)%nat) by (destruct chunks; [done | cbn; lia]).
  assert (HB : 0 < batchSize (config self)) by lia.
  pose proof (batches_single self chunks Hne Hle) as Hb.
  assert (Hok : first_failure vs s (batches (batchSize (config self)) chunks) = None).
  { rewrite Hb. cbn [first_failure].
    destruct (addDocuments_impl vs s chunks) as [s' [e|]]; [discriminate|reflexivity]. }
  destruct (indexDocuments_success self vs chunks fuel s Hvs HB Hfuel Hok)
    as (Ho & Hc & Hs).
  rewrite Ho, Hc, Hs, Hb. by repeat split.
Qed.

Lemma indexDocuments_single_batch_witness :
  outcome (indexDocuments 6 (new_Indexer (Some appendStore) None) fiveChunks [])
  = Returned tt
  /\ add_calls (events (indexDocuments 6 (new_Indexer (Some appendStore) None)
                          fiveChunks [])) = [fiveChunks]
  /\ store (indexDocuments 6 (new_Indexer (Some appendStore) None) fiveChunks [])
     = fst (addDocuments_impl appendStore [] fiveChunks).
Proof.
  apply (indexDocuments_single_batch (new_Indexer (Some appendStore) None) appendStore
           fiveChunks 6 []).
  - reflexivity.
  - discriminate.
  - unfold fiveChunks. simpl. lia.
  - unfold fiveChunks. simpl. lia.
  - reflexivity.
Defined.

(** ** More on the query service and the entry points *)

Section QueryCases.
Context {St : Type}.
Variable vs : QdrantVectorStore St.
Variable chat : string -> Outcome string.

Lemma queryDatabase_search_threw (queryText : string) (e : JsError) (s : St) :
  similaritySearchWithScore_impl vs s queryText 5 = Threw e ->
  queryDatabase vs chat queryText s
  = mkRes (Threw e) s [SimilaritySearchWithScore queryText 5].
Proof.
  intros H. unfold queryDatabase, bind at 1, similaritySearchWithScore.
  cbn [outcome store events]. by rewrite H.
Qed.

Lemma queryDatabase_search_out_of_fuel (queryText : string) (s : St) :
  similaritySearchWithScore_impl vs s queryText 5 = OutOfFuel ->
  queryDatabase vs chat queryText s
  = mkRes OutOfFuel s [SimilaritySearchWithScore queryText 5].
Proof.
  intros H. unfold queryDatabase, bind at 1, similaritySearchWithScore.
  cbn [outcome store events]. by rewrite H.
Qed.

Lemma no_match_false_inv (results : list (Document * Q)) :
  no_match results = false ->
  exists top rest, results = top :: rest /\ (0.6 <= snd top)%Q.
Proof.
  destruct results as [|[doc score] rest]; [discriminate|].
  rewrite no_match_cons. intros H. exists (doc, score), rest.
  split; [reflexivity|]. by apply js_lt_false.
Qed.
End QueryCases.

(** X15: an error of the similarity search leaves [queryDatabase] as it
    is, with nothing logged and the chat model not called. *)
Theorem queryDatabase_propagates_search_error {St : Type} (vs : QdrantVectorStore St)
    (chat : string -> Outcome string) (queryText : string) (e : JsError) (s : St) :
  similaritySearchWithScore_impl vs s queryText 5 = Threw e ->
  queryDatabase vs chat queryText s
  = mkRes (Threw e) s [SimilaritySearchWithScore queryText 5].
Proof. apply queryDatabase_search_threw. Qed.

Lemma queryDatabase_propagates_search_error_witness :
  queryDatabase (unreachableStore "connection refused") (constantChat "unused") "Q" tt
  = mkRes (Threw (mkError "connection refused")) tt [SimilaritySearchWithScore "Q" 5].
Proof.
  apply (queryDatabase_propagates_search_error (unreachableStore "connection refused")
           (constantChat "unused") "Q" (mkError "connection refused") tt).
  reflexivity.
Defined.

(** X16: when the gate passes and the chat model throws, [queryDatabase]
    throws that error right after the call: the prompt (the label
    "Human: " and the rendered template) was sent, but no response line
    and no error line is logged and no result is returned. *)
Theorem queryDatabase_propagates_chat_error {St : Type} (vs : QdrantVectorStore St)
    (chat : string -> Outcome string) (queryText : string)
    (results : list (Document * Q)) (e : JsError) (s : St) :
  similaritySearchWithScore_impl vs s queryText 5 = Returned results ->
  no_match results = false ->
  (forall prompt, chat prompt = Threw e) ->
  queryDatabase vs chat queryText s
  = mkRes (Threw e) s
      [SimilaritySearchWithScore queryText 5; LoggerDebugResults results;
       ChatInvoke
         ("Human: " +:+ LF
          +:+ "Answer the question based only on the following context:"
          +:+ LF +:+ LF +:+ contextText results +:+ LF +:+ LF +:+ "---" +:+ LF +:+ LF
          +:+ "Answer the question based on the above context: "
          +:+ queryText +:+ LF)].
Proof.
  intros Hsearch Hno Hchat.
  pose proof (queryDatabase_accepted vs chat queryText _ s Hsearch Hno) as Hrun.
  cbv zeta in Hrun. rewrite Hrun, Hchat. reflexivity.
Qed.

Lemma queryDatabase_propagates_chat_error_witness :
  queryDatabase (fixedResults [(plainDoc "A", 0.9%Q)]) (failingChat "model down") "Q" tt
  = mkRes (Threw (mkError "model down")) tt
      [SimilaritySearchWithScore "Q" 5; LoggerDebugResults [(plainDoc "A", 0.9%Q)];
       ChatInvoke
         ("Human: " +:+ LF
          +:+ "Answer the question based only on the following context:"
          +:+ LF +:+ LF +:+ "A" +:+ LF +:+ LF +:+ "---" +:+ LF +:+ LF
          +:+ "Answer the question based on the above context: "
          +:+ "Q" +:+ LF)].
Proof.
  apply (queryDatabase_propagates_chat_error (fixedResults [(plainDoc "A", 0.9%Q)])
           (failingChat "model down") "Q" [(plainDoc "A", 0.9%Q)]
           (mkError "model down") tt).
  - reflexivity.
  - reflexivity.
  - intros prompt. reflexivity.
Defined.

(** X17: whatever the store and the chat model answer, a run of
    [queryDatabase] makes exactly one similarity search, for the query
    text as given and 5 candidates, before anything else, and calls the
    chat model at most once. *)
Theorem queryDatabase_one_search_at_most_one_prompt {St : Type}
    (vs : QdrantVectorStore St) (chat : string -> Outcome string)
    (queryText : string) (s : St) :
  searches (events (queryDatabase vs chat queryText s)) = [(queryText, 5%nat)]
  /\ events (queryDatabase vs chat queryText s) !! 0%nat
     = Some (SimilaritySearchWithScore queryText 5)
  /\ (length (prompts_sent (events (queryDatabase vs chat queryText s))) <= 1)%nat.
Proof.
  destruct (similaritySearchWithScore_impl vs s queryText 5) as [results|e|] eqn:Hsearch.
  - destruct (no_match results) eqn:Hno.
    + rewrite (queryDatabase_rejected vs chat queryText results s Hsearch Hno).
      cbn. repeat split. lia.
    + pose proof (queryDatabase_accepted vs chat queryText _ s Hsearch Hno) as Hrun.
      cbv zeta in Hrun. rewrite Hrun.
      match goal with |- context [chat ?p] => destruct (chat p) end;
        cbn [events searches prompts_sent omap length lookup list_lookup];
        repeat split; cbn; lia.
  - rewrite (queryDatabase_search_threw vs chat queryText e s Hsearch).
    cbn. repeat split. lia.
  - rewrite (queryDatabase_search_out_of_fuel vs chat queryText s Hsearch).
    cbn. repeat split. lia.
Qed.

(** X18: [queryDatabase] returns a non-null result exactly when the
    search returned a non-empty list whose first score is not below 0.6
    (the test the code makes) and the chat model answered the prompt,
    that is the label "Human: " and the rendered template; the result then
    carries the chat model's text unchanged and the candidates' sources. *)
Theorem queryDatabase_result_iff {St : Type} (vs : QdrantVectorStore St)
    (chat : string -> Outcome string) (queryText : string) (s : St)
    (res : QueryResult) :
  outcome (queryDatabase vs chat queryText s) = Returned (Some res)
  <-> exists top rest,
        similaritySearchWithScore_impl vs s queryText 5 = Returned (top :: rest)
        /\ ~ (snd top < 0.6)%Q
        /\ chat ("Human: " +:+ LF
                 +:+ "Answer the question based only on the following context:"
                 +:+ LF +:+ LF +:+ contextText (top :: rest)
                 +:+ LF +:+ LF +:+ "---" +:+ LF +:+ LF
                 +:+ "Answer the question based on the above context: "
                 +:+ queryText +:+ LF)
           = Returned (response res)
        /\ sources res = result_sources (top :: rest).
Proof.
  split.
  - intros Hout.
    destruct (similaritySearchWithScore_impl vs s queryText 5) as [results|e|] eqn:Hsearch.
    + destruct (no_match results) eqn:Hno.
      * rewrite (queryDatabase_rejected vs chat queryText results s Hsearch Hno) in Hout.
        discriminate.
      * pose proof (queryDatabase_accepted vs chat queryText _ s Hsearch Hno) as Hrun.
        cbv zeta in Hrun. rewrite Hrun in Hout.
        destruct (no_match_false_inv results Hno) as (top & rest & -> & Hscore).
        exists top, rest.
        split; [reflexivity|]. split; [by apply Qle_not_lt|].
        match type of Hout with context [chat ?p] => destruct (chat p) as [text|e|] end;
          try discriminate.
        cbn [outcome] in Hout. injection Hout as <-. by split.
    + rewrite (queryDatabase_search_threw vs chat queryText e s Hsearch) in Hout.
      discriminate.
    + rewrite (queryDatabase_search_out_of_fuel vs chat queryText s Hsearch) in Hout.
      discriminate.
  - intros (top & rest & Hsearch & Hscore & Hchat & Hsrc).
    assert (Hno : no_match (top :: rest) = false).
    { destruct top as [doc score]. rewrite no_match_cons.
      apply js_lt_false. by apply Qnot_lt_le. }
    pose proof (queryDatabase_accepted vs chat queryText _ s Hsearch Hno) as Hrun.
    cbv zeta in Hrun. rewrite Hrun, Hchat.
    cbn [outcome]. rewrite <- Hsrc. by destruct res.
Qed.

(** X19: whenever [queryDatabase] returns a result, the last thing it did
    was to log that same response text and that same sources list. *)
Theorem queryDatabase_logs_what_it_returns {St : Type} (vs : QdrantVectorStore St)
    (chat : string -> Outcome string) (queryText : string) (s : St)
    (res : QueryResult) :
  outcome (queryDatabase vs chat queryText s) = Returned (Some res) ->
  last (events (queryDatabase vs chat queryText s))
  = Some (LoggerInfoResponse (response res) (sources res))
  /\ error_lines (events (queryDatabase vs chat queryText s)) = []
  /\ store (queryDatabase vs chat queryText s) = s.
Proof.
  intros Hout.
  destruct (similaritySearchWithScore_impl vs s queryText 5) as [results|e|] eqn:Hsearch.
  - destruct (no_match results) eqn:Hno.
    + rewrite (queryDatabase_rejected vs chat queryText results s Hsearch Hno) in Hout.
      discriminate.
    + pose proof (queryDatabase_accepted vs chat queryText _ s Hsearch Hno) as Hrun.
      cbv zeta in Hrun. rewrite Hrun in Hout |- *.
      match type of Hout with context [chat ?p] => destruct (chat p) as [text|e|] end;
        try discriminate.
      cbn [outcome] in Hout. injection Hout as <-. by repeat split.
  - rewrite (queryDatabase_search_threw vs chat queryText e s Hsearch) in Hout.
    discriminate.
  - rewrite (queryDatabase_search_out_of_fuel vs chat queryText s Hsearch) in Hout.
    discriminate.
Qed.

Lemma queryDatabase_logs_what_it_returns_witness :
  last (events (queryDatabase (fixedResults [(sourcedDoc "A" (JStr "a.txt"), 0.9%Q)])
                  (constantChat "answer") "Q" tt))
  = Some (LoggerInfoResponse "answer" [JStr "a.txt"])
  /\ error_lines (events (queryDatabase
                            (fixedResults [(sourcedDoc "A" (JStr "a.txt"), 0.9%Q)])
                            (constantChat "answer") "Q" tt)) = []
  /\ store (queryDatabase (fixedResults [(sourcedDoc "A" (JStr "a.txt"), 0.9%Q)])
              (constantChat "answer") "Q" tt) = tt.
Proof.
  apply (queryDatabase_logs_what_it_returns
           (fixedResults [(sourcedDoc "A" (JStr "a.txt"), 0.9%Q)])
           (constantChat "answer") "Q" tt
           {| response := "answer"; sources := [JStr "a.txt"] |}).
  reflexivity.
Defined.

(** X20: both entry points, when the query argument is missing or is the
    empty string, log their usage line at error level and exit with
    status 1; nothing is searched and the chat model is not called. *)
Theorem main_without_query_exits_1 {St : Type} (vs : QdrantVectorStore St)
    (chat : string -> Outcome string) (argv : list string) (s : St) :
  ((length argv <= 2)%nat \/ argv !! 2%nat = Some "") ->
  query_main vs chat argv s
  = mkRes (Returned (ProcessExit 1)) s
      [LoggerError "Usage: bun run src/lib/query.ts <query_text>"]
  /\ simpleQuery_main chat argv s
     = mkRes (Returned (ProcessExit 1)) s
         [LoggerError "Usage: bun run src/lib/simpleQuery.ts <query_text>"].
Proof.
  intros Harg.
  assert (Hnot : not_text (argv !! 2%nat) = true).
  { destruct Harg as [Hlen | ->]; [|reflexivity].
    by rewrite (lookup_ge_None_2 argv 2 Hlen). }
  unfold query_main, simpleQuery_main. rewrite Hnot. by split.
Qed.

Lemma main_without_query_exits_1_witness :
  query_main (fixedResults []) (constantChat "unused") ["bun"; "src/lib/query.ts"] tt
  = mkRes (Returned (ProcessExit 1)) tt
      [LoggerError "Usage: bun run src/lib/query.ts <query_text>"]
  /\ simpleQuery_main (constantChat "unused") ["bun"; "src/lib/query.ts"] tt
     = mkRes (Returned (ProcessExit 1)) tt
         [LoggerError "Usage: bun run src/lib/simpleQuery.ts <query_text>"].
Proof.
  apply (main_without_query_exits_1 (fixedResults []) (constantChat "unused")
           ["bun"; "src/lib/query.ts"] tt).
  left. simpl. lia.
Defined.

(** X21: with a non-empty query argument, [main] of the query module
    does what [queryDatabase] does on exactly that argument (later
    arguments are ignored) and discards the result: it completes without
    an exit status whenever [queryDatabase] returns, a [null] answer
    included, and fails with the same error when [queryDatabase] throws. *)
Theorem query_main_runs_queryDatabase {St : Type} (vs : QdrantVectorStore St)
    (chat : string -> Outcome string) (argv : list string) (queryText : string) (s : St) :
  argv !! 2%nat = Some queryText ->
  queryText <> "" ->
  events (query_main vs chat argv s) = events (queryDatabase vs chat queryText s)
  /\ store (query_main vs chat argv s) = store (queryDatabase vs chat queryText s)
  /\ outcome (query_main vs chat argv s)
     = match outcome (queryDatabase vs chat queryText s) with
       | Returned _ => Returned Completed
       | Threw e => Threw e
       | OutOfFuel => OutOfFuel
       end.
Proof.
  intros Harg Hne. unfold query_main. rewrite Harg.
  change (default "" (Some queryText)) with queryText. cbn [not_text].
  replace (String.eqb queryText "") with false
    by (symmetry; by apply String.eqb_neq).
  unfold bind.
  destruct (outcome (queryDatabase vs chat queryText s));
    cbn [outcome store events ret]; by rewrite ?app_nil_r.
Qed.

Lemma query_main_runs_queryDatabase_witness :
  events (query_main (fixedResults []) (constantChat "unused")
            ["bun"; "src/lib/query.ts"; "what is RAG?"; "ignored"] tt)
  = events (queryDatabase (fixedResults []) (constantChat "unused") "what is RAG?" tt)
  /\ store (query_main (fixedResults []) (constantChat "unused")
              ["bun"; "src/lib/query.ts"; "what is RAG?"; "ignored"] tt)
     = store (queryDatabase (fixedResults []) (constantChat "unused") "what is RAG?" tt)
  /\ outcome (query_main (fixedResults []) (constantChat "unused")
                ["bun"; "src/lib/query.ts"; "what is RAG?"; "ignored"] tt)
     = match outcome (queryDatabase (fixedResults []) (constantChat "unused")
                        "what is RAG?" tt) with
       | Returned _ => Returned Completed
       | Threw e => Threw e
       | OutOfFuel => OutOfFuel
       end.
Proof.
  apply (query_main_runs_queryDatabase (fixedResults []) (constantChat "unused")
           ["bun"; "src/lib/query.ts"; "what is RAG?"; "ignored"] "what is RAG?" tt).
  - reflexivity.
  - discriminate.
Defined.

(** X22: with a non-empty query argument, [main] of [simpleQuery.ts]
    hands the argument itself to the chat model, with no template around
    it and no similarity search; when the model answers, the answer is
    logged and the run completes; when it throws, so does [main], with
    nothing logged. *)
Theorem simpleQuery_main_sends_raw_query {St : Type}
    (chat : string -> Outcome string) (argv : list string) (queryText : string) (s : St) :
  argv !! 2%nat = Some queryText ->
  queryText <> "" ->
  prompts_sent (events (simpleQuery_main chat argv s)) = [queryText]
  /\ searches (events (simpleQuery_main chat argv s)) = []
  /\ simpleQuery_main chat argv s
     = match chat queryText with
       | Returned content =>
           mkRes (Returned Completed) s [ChatInvoke queryText; LoggerInfo content]
       | Threw e => mkRes (Threw e) s [ChatInvoke queryText]
       | OutOfFuel => mkRes OutOfFuel s [ChatInvoke queryText]
       end.
Proof.
  intros Harg Hne. unfold simpleQuery_main. rewrite Harg.
  change (default "" (Some queryText)) with queryText. cbn [not_text].
  replace (String.eqb queryText "") with false
    by (symmetry; by apply String.eqb_neq).
  unfold bind, model_invoke, bind, emit, await, ret. cbn [outcome store events].
  destruct (chat queryText); by repeat split.
Qed.

Lemma simpleQuery_main_sends_raw_query_witness :
  prompts_sent (events (simpleQuery_main (St := unit) (constantChat "hello")
                          ["bun"; "src/lib/simpleQuery.ts"; "hi {there}"] tt))
  = ["hi {there}"]
  /\ searches (events (simpleQuery_main (St := unit) (constantChat "hello")
                         ["bun"; "src/lib/simpleQuery.ts"; "hi {there}"] tt)) = []
  /\ simpleQuery_main (St := unit) (constantChat "hello")
       ["bun"; "src/lib/simpleQuery.ts"; "hi {there}"] tt
     = match constantChat "hello" "hi {there}" with
       | Returned content =>
           mkRes (Returned Completed) tt [ChatInvoke "hi {there}"; LoggerInfo content]
       | Threw e => mkRes (Threw e) tt [ChatInvoke "hi {there}"]
       | OutOfFuel => mkRes OutOfFuel tt [ChatInvoke "hi {there}"]
       end.
Proof.
  apply (simpleQuery_main_sends_raw_query (St := unit) (constantChat "hello")
           ["bun"; "src/lib/simpleQuery.ts"; "hi {there}"] "hi {there}" tt).
  - reflexivity.
  - discriminate.
Defined.

(** ** The constructor's number fields *)

